(** * mod_io: generic IO handling module for app-core

    A shallow embedding of [apps/appcorerun/src/mod_io.c] and the
    verification of its slot-table bookkeeping.

    The C module owns one static context [_ctx] holding an array of
    [NB_IOS] slot records.  Its functions read and write that array and
    call out to the GPIO driver, the button manager, the app-core host
    and the logger.  Here:

    - C integers are [Z]; a store into a [uint8_t] or [int8_t] field
      from a wider type is written out with [to_uint8] / [to_int8];
    - the array [_ctx.ios] is a [list mio]; an access [ios[i]] outside
      the list is the outcome [OutOfBounds] (undefined in C);
    - every call to an external function is appended to a trace of
      [event]s, and what the environment answers ([GPIO_read],
      [GPIO_readADC], [AppCore_isDeviceActive]) is taken from an [env];
    - constants whose declarations live in headers that are not part of
      the module are Section variables.

    [mod_io_init] is left out: its first eight statements expand from
    build configuration values that the module does not contain. *)

From Stdlib Require Import ZArith Lia.
From stdpp Require Import base numbers list strings.

Open Scope Z_scope.

(** ** Data model *)

(** [typedef enum { IO_DIN=0, IO_DOUT, IO_BUTTON, IO_STATE, IO_AIN, IO_PWMOUT } IO_TYPE;] *)
Inductive IO_TYPE : Type :=
  | IO_DIN | IO_DOUT | IO_BUTTON | IO_STATE | IO_AIN | IO_PWMOUT.

(** [#define NB_IOS (8)] *)
Definition NB_IOS : Z := 8.

(** Conversion to [uint8_t]: reduction modulo 2^8. *)
Definition to_uint8 (z : Z) : Z := z mod 256.

(** Conversion to [int8_t]: two's complement wrap-around. *)
Definition to_int8 (z : Z) : Z := (z + 128) mod 256 - 128.

(** [struct mio]; [pull] is a [GPIO_IDLE_TYPE] enumerator, kept as its
    integer value. *)
Record mio : Type := Mio {
  gpio : Z;          (* int8_t: if not -1, then active *)
  name : string;
  type : IO_TYPE;
  pull : Z;
  valueDL : Z;       (* uint8_t *)
  valueUL : Z        (* uint8_t *)
}.

(** [struct appctx] *)
Record appctx : Type := Appctx { ios : list mio }.

Definition set_gpio (v : Z) (m : mio) : mio :=
  Mio v (name m) (type m) (pull m) (valueDL m) (valueUL m).
Definition set_name (v : string) (m : mio) : mio :=
  Mio (gpio m) v (type m) (pull m) (valueDL m) (valueUL m).
Definition set_type (v : IO_TYPE) (m : mio) : mio :=
  Mio (gpio m) (name m) v (pull m) (valueDL m) (valueUL m).
Definition set_pull (v : Z) (m : mio) : mio :=
  Mio (gpio m) (name m) (type m) v (valueDL m) (valueUL m).
Definition set_valueDL (v : Z) (m : mio) : mio :=
  Mio (gpio m) (name m) (type m) (pull m) v (valueUL m).
Definition set_valueUL (v : Z) (m : mio) : mio :=
  Mio (gpio m) (name m) (type m) (pull m) (valueDL m) v.

(** ** The outside world *)

(** The two callbacks handed to [SRMgr_registerButtonCB]. *)
Inductive callback : Type := CB_buttonChangeCB | CB_stateInputChangeCB.

Inductive log_level : Type := LOG_DEBUG | LOG_INFO | LOG_WARN.

(** One constructor per external function the module calls.  A log
    call records its level and format string; the values printed are
    not recorded, but the calls made to compute them are events of
    their own (the three button-manager getters). *)
Inductive event : Type :=
  | GPIO_define_in (nm : string) (pin : Z) (idle : Z) (lp : Z) (lpidle : Z)
  | GPIO_define_adc (nm : string) (pin : Z) (chan : Z) (lp : Z) (lpidle : Z)
  | GPIO_define_out (nm : string) (pin : Z) (v : Z) (lp : Z) (lpidle : Z)
  | SRMgr_defineButton (pin : Z)
  | SRMgr_registerButtonCB (pin : Z) (cb : callback) (ctx : Z)
  | SRMgr_getLastButtonReleaseTS (pin : Z)
  | SRMgr_getLastButtonPressTS (pin : Z)
  | SRMgr_getLastButtonPressType (pin : Z)
  | GPIO_read (pin : Z)
  | GPIO_readADC (pin : Z)
  | GPIO_write (pin : Z) (v : Z)
  | AppCore_forceUL (modid : Z)
  | app_core_msg_ul_addTLV (tag : Z) (len : Z) (data : list Z)
  | log (lvl : log_level) (msg : string).

(** What the environment answers when asked. *)
Record env : Type := Env {
  GPIO_read_ret : Z -> Z;          (* int GPIO_read(gpio) *)
  GPIO_readADC_ret : Z -> Z;       (* int GPIO_readADC(gpio) *)
  AppCore_isDeviceActive : bool
}.

(** The module's static context together with the calls made so far. *)
Record world : Type := World { _ctx : appctx; trace : list event }.

(** ** A state monad with one failure: an array access out of bounds *)

Inductive outcome (A : Type) : Type :=
  | Ok (a : A) (w : world)
  | OutOfBounds.
Arguments Ok {A} a w.
Arguments OutOfBounds {A}.

Definition M (A : Type) : Type := world -> outcome A.

Definition ret {A} (a : A) : M A := fun w => Ok a w.

Definition bind {A B} (c : M A) (k : A -> M B) : M B :=
  fun w => match c w with
           | Ok a w' => k a w'
           | OutOfBounds => OutOfBounds
           end.

Declare Scope io_scope.
Delimit Scope io_scope with io.
Notation "x <- c ;; k" := (bind c (fun x => k))
  (at level 100, c at next level, right associativity) : io_scope.
Notation "c ;; k" := (bind c (fun _ => k))
  (at level 100, right associativity) : io_scope.
Open Scope io_scope.

(** An external call. *)
Definition call (e : event) : M unit :=
  fun w => Ok tt (World (_ctx w) (trace w ++ [e])).

(** [_ctx.ios[i]] read as a whole record. *)
Definition load_io (i : Z) : M mio :=
  fun w => if i <? 0 then OutOfBounds
           else match ios (_ctx w) !! Z.to_nat i with
                | Some m => Ok m w
                | None => OutOfBounds
                end.

(** [_ctx.ios[i].field = v], the field being chosen by the setter [f]. *)
Definition modify_io (i : Z) (f : mio -> mio) : M unit :=
  fun w => if i <? 0 then OutOfBounds
           else match ios (_ctx w) !! Z.to_nat i with
                | Some m => Ok tt (World (Appctx (<[Z.to_nat i := f m]> (ios (_ctx w)))) (trace w))
                | None => OutOfBounds
                end.

(** [v[i]] on a caller-supplied byte buffer. *)
Definition load_byte (v : list Z) (i : Z) : M Z :=
  fun w => if i <? 0 then OutOfBounds
           else match v !! Z.to_nat i with
                | Some b => Ok b w
                | None => OutOfBounds
                end.

(** [for (int i = lo; i < lo + n; i++) acc = body(i, acc)]: the
    accumulator carries the loop's local variables. *)
Fixpoint for_fold {A} (i : Z) (n : nat) (body : Z -> A -> M A) (a : A) : M A :=
  match n with
  | O => ret a
  | S k => a' <- body i a ;; for_fold (i + 1) k body a'
  end.

Definition for_loop (lo hi : Z) (body : Z -> M unit) : M unit :=
  for_fold lo (Z.to_nat (hi - lo)) (fun i _ => body i) tt.

Section ModIO.

(** Constants of app-core and wyres-generic headers. *)
Variable APP_MOD_PTI : Z.
Variable APP_CORE_UL_APP_SPECIFIC_START : Z.
Variable SR_BUTTON_RELEASED : Z.
Variable LP_DOZE : Z.
Variable HIGH_Z : Z.

(** [#define MY_MOD_ID (APP_MOD_PTI)] *)
Definition MY_MOD_ID : Z := APP_MOD_PTI.

(** [#define UL_APP_IO_STATE (APP_CORE_UL_APP_SPECIFIC_START)] *)
Definition UL_APP_IO_STATE : Z := APP_CORE_UL_APP_SPECIFIC_START.

(** ** The module's functions *)

Definition defineIO (ioid gpio_ : Z) (name_ : string) (t : IO_TYPE)
    (pull_ : Z) (initialValue : Z) : M unit :=
  modify_io ioid (set_gpio (to_int8 gpio_)) ;;
  modify_io ioid (set_name name_) ;;
  modify_io ioid (set_type t) ;;
  modify_io ioid (set_pull pull_) ;;
  modify_io ioid (set_valueDL initialValue).

Definition initIOs : M unit :=
  for_loop 0 NB_IOS (fun i =>
    m <- load_io i ;;
    if 0 <=? gpio m then
      match type m with
      | IO_DIN => call (GPIO_define_in (name m) (gpio m) (pull m) LP_DOZE HIGH_Z)
      | IO_AIN => call (GPIO_define_adc (name m) (gpio m) (gpio m) LP_DOZE HIGH_Z)
      | IO_BUTTON =>
          call (SRMgr_defineButton (gpio m)) ;;
          call (SRMgr_registerButtonCB (gpio m) CB_buttonChangeCB i)
      | IO_STATE =>
          call (SRMgr_defineButton (gpio m)) ;;
          call (SRMgr_registerButtonCB (gpio m) CB_stateInputChangeCB i)
      | IO_DOUT => call (GPIO_define_out (name m) (gpio m) (valueDL m) LP_DOZE HIGH_Z)
      | IO_PWMOUT => ret tt
      end
    else ret tt).

Definition deinitIOs : M unit := ret tt.

Definition readIO (e : env) (ioid : Z) : M Z :=
  if (0 <=? ioid) && (ioid <? NB_IOS) then
    m <- load_io ioid ;;
    (if 0 <=? gpio m then
       match type m with
       | IO_DIN =>
           call (GPIO_read (gpio m)) ;;
           modify_io ioid (set_valueUL (to_uint8 (GPIO_read_ret e (gpio m))))
       | IO_AIN =>
           call (GPIO_readADC (gpio m)) ;;
           modify_io ioid (set_valueUL (to_uint8 (GPIO_readADC_ret e (gpio m))))
       | _ => ret tt
       end
     else ret tt) ;;
    m' <- load_io ioid ;;
    ret (valueUL m')
  else ret 0.

Definition writeIO (ioid : Z) (val : Z) : M unit :=
  if (0 <=? ioid) && (ioid <? NB_IOS) then
    m <- load_io ioid ;;
    if 0 <=? gpio m then
      match type m with
      | IO_DOUT => call (GPIO_write (gpio m) (valueDL m))
      | IO_PWMOUT => ret tt
      | _ => ret tt
      end
    else ret tt
  else ret tt.

Definition readIOs (e : env) : M unit :=
  for_loop 0 NB_IOS (fun i => _ <- readIO e i ;; ret tt).

Definition iosetAction (v : list Z) (l : Z) : M unit :=
  if l =? NB_IOS then
    for_loop 0 NB_IOS (fun i =>
      m <- load_io i ;;
      match type m with
      | IO_DOUT | IO_PWMOUT =>
          b <- load_byte v i ;;
          modify_io i (set_valueDL b) ;;
          b' <- load_byte v i ;;
          writeIO i b' ;;
          call (log LOG_INFO "DL io %d on gpio %d set to %d")
      | _ => ret tt
      end) ;;
    call (log LOG_INFO "DL ios set")
  else call (log LOG_WARN "DL ios not set as wrong length %d").

(** The local array [ds] has [NB_IOS]+1 entries, all written before the
    block is handed over; the encoder is told a length of 12. *)
Definition getData (e : env) : M bool :=
  call (log LOG_INFO "MIO: UL ") ;;
  readIOs e ;;
  ds <- for_fold 0 (Z.to_nat NB_IOS) (fun i ds =>
          m <- load_io i ;;
          let ds := <[Z.to_nat i := valueUL m]> ds in
          modify_io i (set_valueUL 0) ;;
          ret ds)
        (replicate (Z.to_nat (NB_IOS + 1)) 0) ;;
  let ds := <[Z.to_nat NB_IOS := if AppCore_isDeviceActive e then 1 else 0]> ds in
  call (app_core_msg_ul_addTLV UL_APP_IO_STATE 12 ds) ;;
  ret true.

Definition start : M Z :=
  call (log LOG_DEBUG "MIO:start IO check : 1s") ;; ret (1 * 1000).
Definition stop : M unit := call (log LOG_DEBUG "MIO:done").
Definition off : M unit := deinitIOs.
Definition deepsleep : M unit := deinitIOs.
Definition tick : M unit := ret tt.

(** The arguments of the release log line are computed by three
    calls to the button manager on [_ctx.ios[bid].gpio]; C leaves
    their order open, they are written left to right. *)
Definition buttonChangeCB (e : env) (ctx : Z) (currentState currentPressType : Z) : M unit :=
  if currentState =? SR_BUTTON_RELEASED then
    if AppCore_isDeviceActive e then
      let bid := ctx in
      if (0 <=? bid) && (bid <? NB_IOS) then
        m <- load_io bid ;;
        call (SRMgr_getLastButtonReleaseTS (gpio m)) ;;
        call (SRMgr_getLastButtonPressTS (gpio m)) ;;
        call (SRMgr_getLastButtonPressType (gpio m)) ;;
        call (log LOG_INFO "MIO:button %d released, duration %d ms, press type:%d") ;;
        modify_io bid (set_valueUL (to_uint8 currentPressType)) ;;
        call (AppCore_forceUL MY_MOD_ID)
      else call (log LOG_WARN "MIO:button release but bad id %d")
    else call (log LOG_INFO "MIO:button release ignore not active")
  else call (log LOG_INFO "MIO:button pressed").

Definition stateInputChangeCB (e : env) (ctx : Z) (currentState currentPressType : Z) : M unit :=
  if AppCore_isDeviceActive e then
    let bid := ctx in
    if (0 <=? bid) && (bid <? NB_IOS) then
      call (log LOG_INFO "MIO:state input %d changed to %d") ;;
      modify_io bid (set_valueUL (to_uint8 currentState)) ;;
      call (AppCore_forceUL MY_MOD_ID)
    else call (log LOG_WARN "MIO:input state change but bad id %d")
  else call (log LOG_INFO "MIO:input state change ignore not active").

End ModIO.

(** ** Vocabulary of the statements *)

(** A slot is in use when its pin is not negative ([gpio>=0] in the
    code; the configuration writes -1 for "no pin"). *)
Definition assigned (m : mio) : bool := 0 <=? gpio m.

Definition is_output (t : IO_TYPE) : bool :=
  match t with IO_DOUT | IO_PWMOUT => true | _ => false end.

(** The slots of kind [IO_DIN] / [IO_AIN] with a pin are the polled ones. *)
Definition polled (m : mio) : bool :=
  assigned m && match type m with IO_DIN | IO_AIN => true | _ => false end.

(** The context with slot [i] replaced and some calls appended. *)
Definition upd (w : world) (i : Z) (m : mio) (evs : list event) : world :=
  World (Appctx (<[Z.to_nat i := m]> (ios (_ctx w)))) (trace w ++ evs).

(** Map and fold over a list that also see the C index of each element. *)
Fixpoint mapi {A B} (f : Z -> A -> B) (i : Z) (l : list A) : list B :=
  match l with
  | [] => []
  | x :: r => f i x :: mapi f (i + 1) r
  end.

Fixpoint foldi {A B} (h : Z -> A -> B -> B) (i : Z) (l : list A) (b : B) : B :=
  match l with
  | [] => b
  | x :: r => foldi h (i + 1) r (h i x b)
  end.

(** What one [readIO] does to its slot, and the driver calls it makes. *)
Definition readIO_slot (e : env) (m : mio) : mio :=
  if 0 <=? gpio m then
    match type m with
    | IO_DIN => set_valueUL (to_uint8 (GPIO_read_ret e (gpio m))) m
    | IO_AIN => set_valueUL (to_uint8 (GPIO_readADC_ret e (gpio m))) m
    | _ => m
    end
  else m.

Definition readIO_calls (m : mio) : list event :=
  if 0 <=? gpio m then
    match type m with
    | IO_DIN => [GPIO_read (gpio m)]
    | IO_AIN => [GPIO_readADC (gpio m)]
    | _ => []
    end
  else [].

(** The driver calls of one [writeIO] on slot [m]. *)
Definition writeIO_calls (m : mio) : list event :=
  if 0 <=? gpio m then
    match type m with
    | IO_DOUT => [GPIO_write (gpio m) (valueDL m)]
    | _ => []
    end
  else [].

(** What [iosetAction] does with byte [b] on slot [m]. *)
Definition ioset_slot (b : Z) (m : mio) : mio :=
  if is_output (type m) then set_valueDL b m else m.

Definition ioset_calls (b : Z) (m : mio) : list event :=
  if is_output (type m)
  then writeIO_calls (set_valueDL b m) ++ [log LOG_INFO "DL io %d on gpio %d set to %d"]
  else [].

(** The calls of [initIOs] for slot [i]. *)
Definition initIO_calls (LP_DOZE HIGH_Z : Z) (i : Z) (m : mio) : list event :=
  if 0 <=? gpio m then
    match type m with
    | IO_DIN => [GPIO_define_in (name m) (gpio m) (pull m) LP_DOZE HIGH_Z]
    | IO_AIN => [GPIO_define_adc (name m) (gpio m) (gpio m) LP_DOZE HIGH_Z]
    | IO_BUTTON => [SRMgr_defineButton (gpio m); SRMgr_registerButtonCB (gpio m) CB_buttonChangeCB i]
    | IO_STATE => [SRMgr_defineButton (gpio m); SRMgr_registerButtonCB (gpio m) CB_stateInputChangeCB i]
    | IO_DOUT => [GPIO_define_out (name m) (gpio m) (valueDL m) LP_DOZE HIGH_Z]
    | IO_PWMOUT => []
    end
  else [].

(** The pin a driver or button-manager call addresses, if any. *)
Definition event_pin (ev : event) : option Z :=
  match ev with
  | GPIO_define_in _ p _ _ _ | GPIO_define_adc _ p _ _ _ | GPIO_define_out _ p _ _ _
  | SRMgr_defineButton p | SRMgr_registerButtonCB p _ _
  | SRMgr_getLastButtonReleaseTS p | SRMgr_getLastButtonPressTS p
  | SRMgr_getLastButtonPressType p
  | GPIO_read p | GPIO_readADC p | GPIO_write p _ => Some p
  | AppCore_forceUL _ | app_core_msg_ul_addTLV _ _ _ | log _ _ => None
  end.

Definition is_GPIO_write (ev : event) : bool :=
  match ev with GPIO_write _ _ => true | _ => false end.

Definition is_forceUL (ev : event) : bool :=
  match ev with AppCore_forceUL _ => true | _ => false end.

(** Number of forced-uplink requests in a trace. *)
Definition forced (tr : list event) : nat := length (List.filter is_forceUL tr).

(** No call in the trace addresses a negative (absent) pin. *)
Definition pin_ok (ev : event) : bool :=
  match event_pin ev with Some p => 0 <=? p | None => true end.

Definition pins_assigned (tr : list event) : Prop :=
  Forall (fun ev => pin_ok ev = true) tr.

(** The getters of the button manager: they read its records and
    configure or drive nothing. *)
Definition is_query (ev : event) : bool :=
  match ev with
  | SRMgr_getLastButtonReleaseTS _ | SRMgr_getLastButtonPressTS _
  | SRMgr_getLastButtonPressType _ => true
  | _ => false
  end.

(** Every call is on an assigned pin, the getters apart. *)
Definition pins_assigned_or_query (tr : list event) : Prop :=
  Forall (fun ev => pin_ok ev = true \/ is_query ev = true) tr.

(** The payload blocks handed to the uplink encoder, oldest first. *)
Definition reports (tr : list event) : list (list Z) :=
  flat_map (fun ev => match ev with
                      | app_core_msg_ul_addTLV _ _ d => [d]
                      | _ => []
                      end) tr.

(** The context has its [NB_IOS] slots. *)
Definition wf (w : world) : Prop := length (ios (_ctx w)) = Z.to_nat NB_IOS.




(** ** Sample configurations *)

Definition no_io : mio := Mio (-1) "" IO_DIN 0 0 0.

(** Slot 0 a digital output on pin 5, slot 1 a button on pin 6. *)
Definition board_out_button : world :=
  World (Appctx [Mio 5 "OUT0" IO_DOUT 0 0 0; Mio 6 "BTN1" IO_BUTTON 0 0 0;
                 no_io; no_io; no_io; no_io; no_io; no_io]) [].

(** Slot 0 a digital input on pin 5. *)
Definition board_din : world :=
  World (Appctx [Mio 5 "IN0" IO_DIN 0 0 0;
                 no_io; no_io; no_io; no_io; no_io; no_io; no_io]) [].

(** Slot 0 without a pin but holding an uplink value. *)
Definition board_stale : world :=
  World (Appctx [Mio (-1) "" IO_DIN 0 0 3;
                 no_io; no_io; no_io; no_io; no_io; no_io; no_io]) [].


(** Every digital line reads 1, every ADC channel 77, device active. *)
Definition env_high : env := Env (fun _ => 1) (fun _ => 77) true.

(** The same lines while the device is not active. *)
Definition env_idle : env := Env (fun _ => 1) (fun _ => 77) false.

(** ** Vocabulary of the further properties *)

(** The fields fixed by configuration. *)
Definition same_config (m m' : mio) : Prop :=
  gpio m' = gpio m /\ name m' = name m /\ type m' = type m /\ pull m' = pull m.

(** [c] run on [w] returns, keeps the table at its size and every
    slot at its configuration. *)
Definition config_kept {A} (c : M A) (w : world) : Prop :=
  exists a w',
    c w = Ok a w' /\ wf w'
    /\ forall (i : nat) m, ios (_ctx w) !! i = Some m ->
          exists m', ios (_ctx w') !! i = Some m' /\ same_config m m'.

(** The line writes of a downlink byte [b] on slot [m]. *)
Definition dl_writes (b : Z) (m : mio) : list event :=
  if assigned m then
    match type m with
    | IO_DOUT => [GPIO_write (gpio m) b]
    | _ => []
    end
  else [].

(** The value fields of every slot fit a [uint8_t]. *)
Definition is_byte (z : Z) : Prop := 0 <= z < 256.

Definition bytes_ok (l : list mio) : Prop :=
  Forall (fun m => is_byte (valueDL m) /\ is_byte (valueUL m)) l.

(** [c] run on [w] returns and leaves every value field a byte. *)
Definition bytes_kept {A} (c : M A) (w : world) : Prop :=
  exists a w', c w = Ok a w' /\ bytes_ok (ios (_ctx w')).

(** The callback registered for a slot kind. *)
Definition callback_kind (cb : callback) : IO_TYPE :=
  match cb with
  | CB_buttonChangeCB => IO_BUTTON
  | CB_stateInputChangeCB => IO_STATE
  end.

(** ** Generic facts *)

Lemma to_uint8_range z : 0 <= to_uint8 z < 256.
Proof. unfold to_uint8. apply Z.mod_pos_bound. lia. Qed.

Lemma to_uint8_small z : 0 <= z < 256 -> to_uint8 z = z.
Proof. intros H. unfold to_uint8. apply Z.mod_small. exact H. Qed.

Lemma to_int8_small z : -128 <= z < 128 -> to_int8 z = z.
Proof. intros H. unfold to_int8. rewrite Z.mod_small; lia. Qed.

Lemma mapi_length {A B} (f : Z -> A -> B) l : forall i, length (mapi f i l) = length l.
Proof. induction l as [|x r IH]; intros i; simpl; [reflexivity | by rewrite IH]. Qed.

Lemma mapi_lookup {A B} (f : Z -> A -> B) l :
  forall i (j : nat), mapi f i l !! j = f (i + Z.of_nat j) <$> l !! j.
Proof.
  induction l as [|x r IH]; intros i j; simpl.
  - by rewrite !lookup_nil.
  - destruct j as [|j]; simpl.
    + by rewrite Z.add_0_r.
    + rewrite IH. do 2 f_equal. lia.
Qed.

Lemma mapi_const {A B} (f : A -> B) l : forall i, mapi (fun _ => f) i l = map f l.
Proof. induction l as [|x r IH]; intros i; simpl; [reflexivity | by rewrite IH]. Qed.

Lemma bind_Ok {A B} (c : M A) (k : A -> M B) w a w' :
  c w = Ok a w' -> bind c k w = k a w'.
Proof. intros H. unfold bind. by rewrite H. Qed.

Lemma load_io_Some i w m :
  0 <= i -> ios (_ctx w) !! Z.to_nat i = Some m -> load_io i w = Ok m w.
Proof.
  intros Hi Hm. unfold load_io.
  destruct (Z.ltb_spec i 0); [lia|]. by rewrite Hm.
Qed.

Lemma modify_io_Some i f w m :
  0 <= i -> ios (_ctx w) !! Z.to_nat i = Some m ->
  modify_io i f w = Ok tt (upd w i (f m) []).
Proof.
  intros Hi Hm. unfold modify_io, upd.
  destruct (Z.ltb_spec i 0); [lia|]. by rewrite Hm, app_nil_r.
Qed.

Lemma modify_io_out i f w :
  ~ (0 <= i < Z.of_nat (length (ios (_ctx w)))) -> modify_io i f w = OutOfBounds.
Proof.
  intros Hi. unfold modify_io.
  destruct (Z.ltb_spec i 0); [reflexivity|].
  rewrite (lookup_ge_None_2 (ios (_ctx w)) (Z.to_nat i)); [reflexivity | lia].
Qed.

Lemma upd_upd w i m1 e1 m2 e2 :
  upd (upd w i m1 e1) i m2 e2 = upd w i m2 (e1 ++ e2).
Proof. unfold upd; simpl. by rewrite list_insert_insert_eq, app_assoc. Qed.

Lemma upd_id w i m : ios (_ctx w) !! Z.to_nat i = Some m -> upd w i m [] = w.
Proof.
  intros Hm. destruct w as [[l] tr]; unfold upd; simpl in *.
  by rewrite list_insert_id, app_nil_r.
Qed.

Lemma upd_lookup w i m evs :
  (Z.to_nat i < length (ios (_ctx w)))%nat ->
  ios (_ctx (upd w i m evs)) !! Z.to_nat i = Some m.
Proof. intros H. unfold upd; simpl. by apply list_lookup_insert_eq. Qed.

Lemma upd_trace w i m evs : upd w i m evs = World (_ctx (upd w i m [])) (trace w ++ evs).
Proof. reflexivity. Qed.

(** A loop whose body at index [i] rewrites slot [i] only, makes calls
    and updates its local variables from slot [i], is a map over the
    slots. *)
Lemma for_fold_slots {A} (N : Z) (body : Z -> A -> M A)
    (f : Z -> mio -> mio) (g : Z -> mio -> list event) (h : Z -> mio -> A -> A) :
  (forall i a w m,
      0 <= i < N -> length (ios (_ctx w)) = Z.to_nat N ->
      ios (_ctx w) !! Z.to_nat i = Some m ->
      body i a w = Ok (h i m a) (upd w i (f i m) (g i m))) ->
  forall post pre tr a,
    length (pre ++ post) = Z.to_nat N ->
    for_fold (Z.of_nat (length pre)) (length post) body a (World (Appctx (pre ++ post)) tr)
    = Ok (foldi h (Z.of_nat (length pre)) post a)
         (World (Appctx (pre ++ mapi f (Z.of_nat (length pre)) post))
                (tr ++ concat (mapi g (Z.of_nat (length pre)) post))).
Proof.
  intros Hbody post. induction post as [|m post IH]; intros pre tr a Hlen.
  - simpl. rewrite !app_nil_r. reflexivity.
  - simpl for_fold. rewrite length_app in Hlen. simpl in Hlen.
    erewrite bind_Ok; cycle 1.
    { apply Hbody with (m := m); simpl.
      - lia.
      - rewrite length_app. simpl. lia.
      - rewrite Nat2Z.id. apply list_lookup_middle. reflexivity. }
    unfold upd; simpl. rewrite Nat2Z.id.
    rewrite insert_app_r_alt, Nat.sub_diag by lia. simpl.
    replace (pre ++ f (Z.of_nat (length pre)) m :: post)
      with ((pre ++ [f (Z.of_nat (length pre)) m]) ++ post)
      by (by rewrite <- app_assoc).
    replace (Z.of_nat (length pre) + 1)
      with (Z.of_nat (length (pre ++ [f (Z.of_nat (length pre)) m])))
      by (rewrite length_app; simpl; lia).
    rewrite IH by (rewrite !length_app; simpl; lia).
    rewrite <- !app_assoc. reflexivity.
Qed.

Lemma for_loop_slots (body : Z -> M unit)
    (f : Z -> mio -> mio) (g : Z -> mio -> list event) :
  (forall i w m,
      0 <= i < NB_IOS -> wf w ->
      ios (_ctx w) !! Z.to_nat i = Some m ->
      body i w = Ok tt (upd w i (f i m) (g i m))) ->
  forall w, wf w ->
    for_loop 0 NB_IOS body w
    = Ok tt (World (Appctx (mapi f 0 (ios (_ctx w))))
                   (trace w ++ concat (mapi g 0 (ios (_ctx w))))).
Proof.
  intros Hbody [[l] tr] Hwf. unfold wf in *; simpl in *.
  unfold for_loop.
  pose proof (for_fold_slots NB_IOS (fun i _ => body i) f g (fun _ _ u => u)) as H.
  specialize (H (fun i a w m Hi Hl Hm => ltac:(destruct a; exact (Hbody i w m Hi Hl Hm)))).
  specialize (H l [] tr tt Hwf). cbn [app length] in H.
  change (Z.of_nat 0) with 0 in H.
  rewrite Z.sub_0_r, <- Hwf, H. f_equal.
  clear. generalize 0. induction l as [|x r IH]; intros i; simpl; auto.
Qed.

(** ** [readIO] and [writeIO] *)

Lemma in_range_true i : 0 <= i < NB_IOS -> (0 <=? i) && (i <? NB_IOS) = true.
Proof. unfold NB_IOS. intros H. apply andb_true_iff. split; [apply Z.leb_le | apply Z.ltb_lt]; lia. Qed.

Lemma in_range_false i : ~ (0 <= i < NB_IOS) -> (0 <=? i) && (i <? NB_IOS) = false.
Proof.
  unfold NB_IOS. intros H. apply andb_false_iff.
  destruct (Z.leb_spec 0 i); [right; apply Z.ltb_ge; lia | by left].
Qed.

(** Unfolds the primitive accesses on a context whose slot [i] is known. *)
Ltac io_run Hi Hm :=
  unfold bind, call, ret, load_io, modify_io, upd; simpl;
  repeat (first
    [ rewrite (proj2 (Z.ltb_ge _ 0) Hi)
    | rewrite Hm
    | rewrite list_lookup_insert_eq by (eapply lookup_lt_Some; exact Hm)
    | rewrite list_insert_insert_eq
    | rewrite <- app_assoc
    | rewrite app_nil_r ]; simpl).

Lemma readIO_valid e i w m :
  0 <= i < NB_IOS -> ios (_ctx w) !! Z.to_nat i = Some m ->
  readIO e i w = Ok (valueUL (readIO_slot e m)) (upd w i (readIO_slot e m) (readIO_calls m)).
Proof.
  intros Hi Hm. unfold readIO. rewrite (in_range_true i Hi).
  destruct Hi as [Hi _]. destruct w as [[l] tr]. simpl in Hm.
  unfold readIO_slot, readIO_calls.
  io_run Hi Hm.
  destruct (0 <=? gpio m); [destruct (type m)|]; io_run Hi Hm;
    try reflexivity; by rewrite (list_insert_id l _ m Hm).
Qed.

Lemma writeIO_valid i val w m :
  0 <= i < NB_IOS -> ios (_ctx w) !! Z.to_nat i = Some m ->
  writeIO i val w = Ok tt (World (_ctx w) (trace w ++ writeIO_calls m)).
Proof.
  intros Hi Hm. unfold writeIO. rewrite (in_range_true i Hi).
  destruct Hi as [Hi _]. destruct w as [[l] tr]. simpl in Hm.
  unfold writeIO_calls. io_run Hi Hm.
  destruct (0 <=? gpio m); [destruct (type m)|]; io_run Hi Hm; reflexivity.
Qed.

Lemma readIO_invalid e i w : ~ (0 <= i < NB_IOS) -> readIO e i w = Ok 0 w.
Proof. intros Hi. unfold readIO. by rewrite (in_range_false i Hi). Qed.

Lemma writeIO_invalid i val w : ~ (0 <= i < NB_IOS) -> writeIO i val w = Ok tt w.
Proof. intros Hi. unfold writeIO. by rewrite (in_range_false i Hi). Qed.

Lemma wf_lookup w i : wf w -> 0 <= i < NB_IOS -> exists m, ios (_ctx w) !! Z.to_nat i = Some m.
Proof.
  unfold wf, NB_IOS. intros Hwf Hi.
  destruct (lookup_lt_is_Some_2 (ios (_ctx w)) (Z.to_nat i)) as [m Hm]; [lia | eauto].
Qed.

(** ** The loops over the slot table *)

Lemma concat_mapi_nil {A B} (l : list A) :
  forall i, concat (mapi (fun (_ : Z) (_ : A) => @nil B) i l) = [].
Proof. induction l as [|x r IH]; intros i; simpl; auto. Qed.

Lemma mapi_zip_with {A B C} (F : A -> B -> C) (d : A) (v : list A) (l : list B) :
  forall k : nat,
    (k + length l <= length v)%nat ->
    mapi (fun i m => F (default d (v !! Z.to_nat i)) m) (Z.of_nat k) l
    = zip_with F (drop k v) l.
Proof.
  induction l as [|x r IH]; intros k Hk; simpl in *.
  - by destruct (drop k v).
  - destruct (lookup_lt_is_Some_2 v k) as [b Hb]; [lia|].
    rewrite (drop_S v b k Hb). simpl.
    rewrite Nat2Z.id, Hb. simpl. f_equal.
    replace (Z.of_nat k + 1) with (Z.of_nat (S k)) by lia.
    apply IH. lia.
Qed.

Lemma foldi_store (l : list mio) :
  forall (k : nat) (ds : list Z),
    (k + length l <= length ds)%nat ->
    foldi (fun i m ds => <[Z.to_nat i := valueUL m]> ds) (Z.of_nat k) l ds
    = take k ds ++ map valueUL l ++ drop (k + length l) ds.
Proof.
  induction l as [|x r IH]; intros k ds Hk; simpl in *.
  - by rewrite Nat.add_0_r, take_drop.
  - replace (Z.of_nat k + 1) with (Z.of_nat (S k)) by lia.
    rewrite IH by (rewrite length_insert; lia).
    rewrite Nat2Z.id.
    rewrite (take_S_r _ k (valueUL x)) by (apply list_lookup_insert_eq; lia).
    rewrite take_insert_ge by lia.
    rewrite drop_insert_lt by lia.
    rewrite <- app_assoc. simpl.
    by replace (S (k + length r)) with (k + S (length r))%nat by lia.
Qed.

Lemma readIOs_spec e w :
  wf w ->
  readIOs e w = Ok tt (World (Appctx (map (readIO_slot e) (ios (_ctx w))))
                             (trace w ++ concat (map readIO_calls (ios (_ctx w))))).
Proof.
  intros Hwf. unfold readIOs.
  rewrite (for_loop_slots _ (fun _ => readIO_slot e) (fun _ => readIO_calls)); [|auto..].
  - by rewrite !mapi_const.
  - intros i w' m Hi _ Hm. by rewrite (bind_Ok _ _ _ _ _ (readIO_valid e i w' m Hi Hm)).
Qed.

Lemma initIOs_spec LP_DOZE HIGH_Z w :
  wf w ->
  initIOs LP_DOZE HIGH_Z w
  = Ok tt (World (_ctx w)
                 (trace w ++ concat (mapi (initIO_calls LP_DOZE HIGH_Z) 0 (ios (_ctx w))))).
Proof.
  intros Hwf. unfold initIOs.
  rewrite (for_loop_slots _ (fun _ m => m) (initIO_calls LP_DOZE HIGH_Z)); [|auto..].
  - rewrite mapi_const, map_id. by destruct w as [[l] tr].
  - intros i [[l] tr] m [Hi _] _ Hm. simpl in Hm. unfold initIO_calls.
    io_run Hi Hm.
    destruct (0 <=? gpio m); [destruct (type m)|]; io_run Hi Hm;
      by rewrite (list_insert_id l _ m Hm).
Qed.

Lemma ioset_body (v : list Z) i w m :
  0 <= i < NB_IOS -> length v = Z.to_nat NB_IOS -> wf w ->
  ios (_ctx w) !! Z.to_nat i = Some m ->
  (m0 <- load_io i ;;
   match type m0 with
   | IO_DOUT | IO_PWMOUT =>
       b <- load_byte v i ;;
       modify_io i (set_valueDL b) ;;
       b' <- load_byte v i ;;
       writeIO i b' ;;
       call (log LOG_INFO "DL io %d on gpio %d set to %d"%string)
   | _ => ret tt
   end) w
  = Ok tt (upd w i (ioset_slot (default 0 (v !! Z.to_nat i)) m)
                   (ioset_calls (default 0 (v !! Z.to_nat i)) m)).
Proof.
  intros Hi Hv Hwf Hm.
  destruct (lookup_lt_is_Some_2 v (Z.to_nat i)) as [b Hb]; [unfold NB_IOS in *; lia|].
  rewrite Hb. simpl.
  rewrite (bind_Ok _ _ _ _ _ (load_io_Some i w m (proj1 Hi) Hm)).
  assert (Hlt : (Z.to_nat i < length (ios (_ctx w)))%nat) by (eapply lookup_lt_Some; eauto).
  assert (Hbyte : forall w', load_byte v i w' = Ok b w').
  { intros w'. unfold load_byte. destruct (Z.ltb_spec i 0); [lia|]. by rewrite Hb. }
  unfold ioset_slot, ioset_calls.
  destruct (type m) eqn:Ht; simpl;
    try (unfold ret; by rewrite upd_id);
    rewrite (bind_Ok _ _ _ _ _ (Hbyte w));
    rewrite (bind_Ok _ _ _ _ _ (modify_io_Some i _ w m (proj1 Hi) Hm));
    rewrite (bind_Ok _ _ _ _ _ (Hbyte _));
    rewrite (bind_Ok _ _ _ _ _ (writeIO_valid i b _ (set_valueDL b m) Hi (upd_lookup w i _ [] Hlt)));
    unfold call, upd; simpl; by rewrite !app_nil_r, <- !app_assoc.
Qed.

Lemma iosetAction_spec (v : list Z) w :
  wf w -> length v = Z.to_nat NB_IOS ->
  iosetAction v NB_IOS w
  = Ok tt (World (Appctx (zip_with ioset_slot v (ios (_ctx w))))
                 (trace w ++ concat (zip_with ioset_calls v (ios (_ctx w)))
                          ++ [log LOG_INFO "DL ios set"%string])).
Proof.
  intros Hwf Hv. unfold iosetAction. rewrite Z.eqb_refl.
  erewrite bind_Ok; cycle 1.
  { apply (for_loop_slots _
             (fun i m => ioset_slot (default 0 (v !! Z.to_nat i)) m)
             (fun i m => ioset_calls (default 0 (v !! Z.to_nat i)) m)); [|exact Hwf].
    intros i w' m Hi Hwf' Hm. by apply ioset_body. }
  unfold call; simpl.
  change 0 with (Z.of_nat 0).
  rewrite !mapi_zip_with by (unfold wf in Hwf; simpl; lia).
  simpl. by rewrite <- app_assoc.
Qed.

Lemma getData_spec TAG e w :
  wf w ->
  getData TAG e w
  = Ok true
      (World (Appctx (map (set_valueUL 0) (map (readIO_slot e) (ios (_ctx w)))))
             (trace w ++ [log LOG_INFO "MIO: UL "%string]
                ++ concat (map readIO_calls (ios (_ctx w)))
                ++ [app_core_msg_ul_addTLV TAG 12
                      (map valueUL (map (readIO_slot e) (ios (_ctx w)))
                         ++ [if AppCore_isDeviceActive e then 1 else 0])])).
Proof.
  intros Hwf. unfold getData.
  unfold bind at 1. unfold call at 1.
  erewrite bind_Ok; cycle 1.
  { apply readIOs_spec. exact Hwf. }
  cbn [_ctx ios trace].
  set (l := map (readIO_slot e) (ios (_ctx w))).
  assert (Hl : length l = Z.to_nat NB_IOS) by (subst l; by rewrite length_map).
  match goal with
  | |- bind (for_fold 0 _ ?body ?ds0) _ (World _ ?tr0) = _ =>
      assert (Hloop := for_fold_slots NB_IOS body (fun _ => set_valueUL 0) (fun _ _ => [])
                         (fun i m ds => <[Z.to_nat i := valueUL m]> ds)
                         ltac:(intros i a [[l'] tr'] m [Hi _] _ Hm; simpl in Hm;
                               io_run Hi Hm; reflexivity)
                         l [] tr0 ds0 Hl)
  end.
  cbn [app length] in Hloop. change (Z.of_nat 0) with 0 in Hloop. rewrite Hl in Hloop.
  rewrite (bind_Ok _ _ _ _ _ Hloop). clear Hloop.
  rewrite mapi_const, concat_mapi_nil, app_nil_r.
  assert (Hds := foldi_store l 0 (replicate (Z.to_nat (NB_IOS + 1)) 0)
                   ltac:(rewrite length_replicate, Hl; unfold NB_IOS; simpl; lia)).
  change (Z.of_nat 0) with 0 in Hds. rewrite Hds. clear Hds.
  rewrite take_0, Hl. simpl.
  unfold call, ret, UL_APP_IO_STATE. simpl.
  rewrite insert_app_r_alt by (rewrite length_map, Hl; unfold NB_IOS; simpl; lia).
  rewrite length_map, Hl. simpl.
  unfold bind. simpl. by rewrite <- !app_assoc.
Qed.

(** ** Slot definition *)

Lemma defineIO_in_range i g n t p v w m :
  0 <= i < NB_IOS -> ios (_ctx w) !! Z.to_nat i = Some m ->
  defineIO i g n t p v w = Ok tt (upd w i (Mio (to_int8 g) n t p v (valueUL m)) []).
Proof.
  intros [Hi _] Hm. destruct w as [[l] tr]. simpl in Hm.
  unfold defineIO. io_run Hi Hm. reflexivity.
Qed.

Lemma defineIO_out_of_range i g n t p v w :
  wf w -> ~ (0 <= i < NB_IOS) -> defineIO i g n t p v w = OutOfBounds.
Proof.
  unfold wf, NB_IOS. intros Hwf Hi. unfold defineIO, bind.
  rewrite modify_io_out; [reflexivity | lia].
Qed.

(** C2 (the index is not checked).  [defineIO] stores through
    [_ctx.ios[ioid]] without comparing [ioid] to [NB_IOS]: called with
    an index outside the table (8, or -1) it accesses the array out of
    bounds instead of returning without effect, while [writeIO] and
    [readIO] given the same index return normally and leave the
    context as it was. *)
Theorem defineIO_index_unchecked (i g : Z) (n : string) (t : IO_TYPE) (p v : Z)
    (e : env) (w : world) :
  wf w -> ~ (0 <= i < NB_IOS) ->
  defineIO i g n t p v w = OutOfBounds
  /\ writeIO i v w = Ok tt w
  /\ readIO e i w = Ok 0 w.
Proof.
  intros Hwf Hi. split; [by apply defineIO_out_of_range|].
  split; [by apply writeIO_invalid | by apply readIO_invalid].
Qed.

Lemma defineIO_index_unchecked_witness :
  wf board_out_button
  /\ (defineIO 8 5 "X" IO_DOUT 0 1 board_out_button = OutOfBounds
      /\ writeIO 8 1 board_out_button = Ok tt board_out_button
      /\ readIO env_high 8 board_out_button = Ok 0 board_out_button)
  /\ defineIO (-1) 5 "X" IO_DOUT 0 1 board_out_button = OutOfBounds.
Proof.
  split; [reflexivity|]. split.
  - apply (defineIO_index_unchecked 8 5 "X" IO_DOUT 0 1 env_high board_out_button eq_refl).
    intros [_ H]. exact (Z.lt_irrefl 8 H).
  - apply (defineIO_index_unchecked (-1) 5 "X" IO_DOUT 0 1 env_high board_out_button eq_refl).
    intros [H _]. exact (H eq_refl).
Defined.

(** ** Writing an output *)





(** ** Downlink action *)

(** C3.  A downlink set whose length [l], as handed over with the
    buffer, is not [NB_IOS] is rejected as a whole: the call returns
    with the context exactly as it was (no [valueDL] and no other
    field of any slot changes) and its only call is the warning; in
    particular nothing is written to a line. *)
Theorem iosetAction_wrong_length (v : list Z) (l : Z) (w : world) :
  l <> NB_IOS ->
  exists w',
    iosetAction v l w = Ok tt w'
    /\ _ctx w' = _ctx w
    /\ trace w' = trace w ++ [log LOG_WARN "DL ios not set as wrong length %d"]
    /\ List.filter is_GPIO_write (trace w') = List.filter is_GPIO_write (trace w).
Proof.
  intros Hl. unfold iosetAction.
  destruct (Z.eqb_spec l NB_IOS) as [|_]; [contradiction|].
  eexists. split; [reflexivity|]. simpl. repeat split.
  rewrite List.filter_app. simpl. by rewrite app_nil_r.
Qed.

Lemma iosetAction_wrong_length_witness :
  3 <> NB_IOS
  /\ exists w',
       iosetAction [1; 0; 1] 3 board_out_button = Ok tt w'
       /\ _ctx w' = _ctx board_out_button
       /\ trace w' = trace board_out_button
                     ++ [log LOG_WARN "DL ios not set as wrong length %d"]
       /\ List.filter is_GPIO_write (trace w')
          = List.filter is_GPIO_write (trace board_out_button).
Proof.
  split; [discriminate|].
  apply (iosetAction_wrong_length [1; 0; 1] 3 board_out_button). discriminate.
Defined.

Lemma concat_lookup_In {A} (ll : list (list A)) (i : nat) (l : list A) (x : A) :
  ll !! i = Some l -> In x l -> In x (concat ll).
Proof.
  intros Hl Hx. apply in_concat. exists l. split; [|exact Hx].
  apply list_elem_of_In. by eapply list_elem_of_lookup_2.
Qed.

(** C4.  A downlink set of exactly [NB_IOS] bytes is applied slot by
    slot: a slot of kind [IO_DOUT] or [IO_PWMOUT] gets byte [i] as its
    [valueDL] and [writeIO] is run for it (its driver calls are in the
    trace; for a DigitalOut with a pin that is [GPIO_write] of the
    byte); a slot of any other kind keeps every field. *)
Theorem iosetAction_valid_length (v : list Z) (w : world) :
  wf w -> length v = Z.to_nat NB_IOS ->
  exists w',
    iosetAction v NB_IOS w = Ok tt w'
    /\ wf w'
    /\ trace w' = trace w ++ concat (zip_with ioset_calls v (ios (_ctx w)))
                          ++ [log LOG_INFO "DL ios set"]
    /\ forall (i : nat) (m : mio) (b : Z),
         ios (_ctx w) !! i = Some m -> v !! i = Some b ->
         (is_output (type m) = true ->
            ios (_ctx w') !! i = Some (set_valueDL b m)
            /\ (forall ev, In ev (writeIO_calls (set_valueDL b m)) -> In ev (trace w'))
            /\ (type m = IO_DOUT -> assigned m = true ->
                In (GPIO_write (gpio m) b) (trace w')))
         /\ (is_output (type m) = false -> ios (_ctx w') !! i = Some m).
Proof.
  intros Hwf Hv. eexists. split; [by apply iosetAction_spec|].
  cbn [_ctx ios trace]. split; [|split; [reflexivity|]].
  { unfold wf in *; simpl. rewrite length_zip_with. lia. }
  intros i m b Hm Hb.
  assert (Hslot : zip_with ioset_slot v (ios (_ctx w)) !! i = Some (ioset_slot b m))
    by (by rewrite lookup_zip_with, Hb, Hm).
  assert (Hcalls : zip_with ioset_calls v (ios (_ctx w)) !! i = Some (ioset_calls b m))
    by (by rewrite lookup_zip_with, Hb, Hm).
  assert (Hin : forall ev, In ev (ioset_calls b m) ->
                  In ev (trace w ++ concat (zip_with ioset_calls v (ios (_ctx w)))
                           ++ [log LOG_INFO "DL ios set"])).
  { intros ev Hev. apply in_or_app. right. apply in_or_app. left.
    by eapply concat_lookup_In. }
  unfold ioset_slot in Hslot. unfold ioset_calls in Hin.
  split; intros Hout; rewrite Hout in *; [|exact Hslot].
  split; [exact Hslot|]. split.
  - intros ev Hev. apply Hin, in_or_app. by left.
  - intros Ht Ha. apply Hin, in_or_app. left.
    unfold writeIO_calls, assigned in *. simpl. rewrite Ha, Ht. by left.
Qed.

Lemma iosetAction_valid_length_witness :
  exists w',
    iosetAction [1; 0; 0; 0; 0; 0; 0; 0] NB_IOS board_out_button = Ok tt w'
    /\ ios (_ctx w') !! 0%nat = Some (Mio 5 "OUT0" IO_DOUT 0 1 0)
    /\ ios (_ctx w') !! 1%nat = Some (Mio 6 "BTN1" IO_BUTTON 0 0 0)
    /\ In (GPIO_write 5 1) (trace w').
Proof.
  destruct (iosetAction_valid_length [1; 0; 0; 0; 0; 0; 0; 0] board_out_button
              eq_refl eq_refl) as (w' & Hrun & _ & _ & Hslots).
  exists w'. split; [exact Hrun|].
  destruct (Hslots 0%nat (Mio 5 "OUT0" IO_DOUT 0 0 0) 1 eq_refl eq_refl) as [Hout _].
  destruct (Hslots 1%nat (Mio 6 "BTN1" IO_BUTTON 0 0 0) 0 eq_refl eq_refl) as [_ Hin].
  destruct (Hout eq_refl) as (H0 & _ & Hw).
  split; [exact H0|]. split; [exact (Hin eq_refl)|]. exact (Hw eq_refl eq_refl).
Defined.

(** ** Report builder *)

(** C5.  [getData] first refreshes the polled slots ([readIOs]), then
    hands the uplink encoder, under tag [UL_APP_IO_STATE] and with
    declared length 12, a block of [NB_IOS]+1 bytes: byte [i] is the
    refreshed [valueUL] of slot [i], the last byte is 1 when the device
    is active and 0 otherwise.  Every slot is left with [valueUL = 0]
    and the call returns [true]. *)
Theorem getData_report (TAG : Z) (e : env) (w : world) :
  wf w ->
  exists polled_ios calls ds w',
    readIOs e w = Ok tt (World (Appctx polled_ios) (trace w ++ calls))
    /\ getData TAG e w = Ok true w'
    /\ ios (_ctx w') = map (set_valueUL 0) polled_ios
    /\ trace w' = trace w ++ [log LOG_INFO "MIO: UL "] ++ calls
                  ++ [app_core_msg_ul_addTLV (UL_APP_IO_STATE TAG) 12 ds]
    /\ length ds = Z.to_nat (NB_IOS + 1)
    /\ (forall (i : nat) m, polled_ios !! i = Some m -> ds !! i = Some (valueUL m))
    /\ ds !! Z.to_nat NB_IOS = Some (if AppCore_isDeviceActive e then 1 else 0)
    /\ (forall (i : nat) m', ios (_ctx w') !! i = Some m' -> valueUL m' = 0).
Proof.
  intros Hwf.
  exists (map (readIO_slot e) (ios (_ctx w))), (concat (map readIO_calls (ios (_ctx w)))).
  eexists. eexists.
  split; [by apply readIOs_spec|].
  split; [by apply getData_spec|].
  cbn [_ctx ios trace].
  assert (Hlen : length (map valueUL (map (readIO_slot e) (ios (_ctx w)))) = Z.to_nat NB_IOS)
    by (by rewrite !length_map).
  repeat split.
  - rewrite length_app, Hlen. reflexivity.
  - intros i m Hm. rewrite lookup_app_l.
    + change (map valueUL ?l) with (valueUL <$> l). by rewrite list_lookup_fmap, Hm.
    + rewrite length_map. by eapply lookup_lt_Some.
  - rewrite lookup_app_r by (rewrite Hlen; lia). by rewrite Hlen, Nat.sub_diag.
  - intros i m' Hm'. change (map (set_valueUL 0) ?l) with (set_valueUL 0 <$> l) in Hm'.
    rewrite list_lookup_fmap in Hm'.
    destruct (_ !! i); simpl in Hm'; [|discriminate]. by inversion Hm'.
Qed.

Lemma getData_report_witness :
  exists w',
    getData 240 env_high board_din = Ok true w'
    /\ reports (trace w') = [[1; 0; 0; 0; 0; 0; 0; 0; 1]]
    /\ ios (_ctx w') !! 0%nat = Some (Mio 5 "IN0" IO_DIN 0 0 0).
Proof.
  destruct (getData_report 240 env_high board_din eq_refl)
    as (l & calls & ds & w' & Hread & Hrun & _).
  exists w'. split; [exact Hrun|].
  assert (Hw : Ok true w' = getData 240 env_high board_din) by (symmetry; exact Hrun).
  vm_compute in Hw. inversion Hw. split; reflexivity.
Defined.


Lemma readIO_slot_again e m :
  valueUL (readIO_slot e (set_valueUL 0 (readIO_slot e m)))
  = if polled m then valueUL (readIO_slot e m) else 0.
Proof.
  unfold polled, assigned, readIO_slot.
  destruct m as [g n t p dl ul]; simpl.
  destruct (0 <=? g) eqn:Hg; simpl; [|by rewrite Hg].
  destruct t; simpl; by rewrite Hg.
Qed.

(** C6 as stated fails on a polled input: with slot 0 a DigitalIn on
    pin 5 whose line reads 1, both of two consecutive reports carry 1
    in byte 0 (tag 240 stands for any tag). *)
Lemma polled_input_reported_again_counterexample :
  exists w1 w2,
    getData 240 env_high board_din = Ok true w1
    /\ getData 240 env_high w1 = Ok true w2
    /\ reports (trace w2) = [[1; 0; 0; 0; 0; 0; 0; 0; 1]; [1; 0; 0; 0; 0; 0; 0; 0; 1]].
Proof.
  do 2 eexists.
  split; [vm_compute; reflexivity|].
  split; vm_compute; reflexivity.
Qed.

(** C6, amended.  Of two consecutive [getData] calls with the same
    environment and nothing in between, the second reports, in byte
    [i], 0 for every slot that is not polled (no pin, or a kind other
    than [IO_DIN] / [IO_AIN]); for a polled slot it reports the sample
    that [readIOs] has just taken again. *)
Theorem getData_twice (TAG : Z) (e : env) (w : world) :
  wf w ->
  exists w1 w2 calls ds2,
    getData TAG e w = Ok true w1
    /\ getData TAG e w1 = Ok true w2
    /\ trace w2 = trace w1 ++ calls
                  ++ [app_core_msg_ul_addTLV (UL_APP_IO_STATE TAG) 12 ds2]
    /\ reports calls = []
    /\ length ds2 = Z.to_nat (NB_IOS + 1)
    /\ forall (i : nat) m,
         ios (_ctx w) !! i = Some m ->
         ds2 !! i = Some (if polled m then valueUL (readIO_slot e m) else 0).
Proof.
  intros Hwf.
  set (l1 := map (set_valueUL 0) (map (readIO_slot e) (ios (_ctx w)))).
  assert (Hwf1 : forall tr, wf (World (Appctx l1) tr)).
  { intros tr. unfold wf in *. subst l1. simpl. by rewrite !length_map. }
  eexists. eexists.
  exists ([log LOG_INFO "MIO: UL "] ++ concat (map readIO_calls l1)).
  eexists.
  split; [by apply getData_spec|].
  split; [by apply getData_spec|].
  cbn [_ctx ios trace]. fold l1.
  split; [by rewrite <- !app_assoc|].
  split.
  { simpl. generalize l1. clear. intros l. induction l as [|m r IH]; simpl; [reflexivity|].
    unfold reports in *. rewrite flat_map_app, IH, app_nil_r.
    unfold readIO_calls. destruct (0 <=? gpio m); [destruct (type m)|]; reflexivity. }
  split.
  { rewrite length_app, !length_map. unfold wf in Hwf1. specialize (Hwf1 []).
    simpl in Hwf1. rewrite Hwf1. reflexivity. }
  intros i m Hm.
  rewrite lookup_app_l by (rewrite !length_map; subst l1;
                           rewrite !length_map; by eapply lookup_lt_Some).
  subst l1. change map with (@fmap list _) in *.
  rewrite !list_lookup_fmap, Hm. simpl. by rewrite readIO_slot_again.
Qed.

Lemma getData_twice_witness :
  wf board_out_button
  /\ exists w1 w2,
       getData 240 env_high board_out_button = Ok true w1
       /\ getData 240 env_high w1 = Ok true w2
       /\ last (reports (trace w2)) = Some [0; 0; 0; 0; 0; 0; 0; 0; 1].
Proof.
  split; [reflexivity|].
  destruct (getData_twice 240 env_high board_out_button eq_refl)
    as (w1 & w2 & calls & ds2 & H1 & H2 & _).
  exists w1, w2. split; [exact H1|]. split; [exact H2|].
  assert (E1 : Ok true w1 = getData 240 env_high board_out_button) by (symmetry; exact H1).
  vm_compute in E1. inversion E1. subst w1. clear E1.
  assert (E2 : Ok true w2 = getData 240 env_high
                 (World (Appctx [Mio 5 "OUT0" IO_DOUT 0 0 0; Mio 6 "BTN1" IO_BUTTON 0 0 0;
                                 no_io; no_io; no_io; no_io; no_io; no_io])
                        [log LOG_INFO "MIO: UL ";
                         app_core_msg_ul_addTLV 240 12 [0; 0; 0; 0; 0; 0; 0; 0; 1]]))
    by (symmetry; exact H2).
  vm_compute in E2. inversion E2. reflexivity.
Defined.

(** ** Edge callbacks *)

Lemma forced_app tr1 tr2 : forced (tr1 ++ tr2) = (forced tr1 + forced tr2)%nat.
Proof. unfold forced. by rewrite List.filter_app, length_app. Qed.

(** C7.  While the device is active and the context names a slot of
    the table: a release stores the press type (as a [uint8_t]) in
    that slot's [valueUL], touches nothing else, and asks once for a
    forced uplink with [MY_MOD_ID] (its other calls are the log line
    and the three getters that feed it); any other button state only
    logs:
    the context is unchanged and no forced uplink is asked for. *)
Theorem buttonChangeCB_edge (MOD REL : Z) (e : env) (bid st pt : Z) (w : world) (m : mio) :
  AppCore_isDeviceActive e = true ->
  0 <= bid < NB_IOS ->
  ios (_ctx w) !! Z.to_nat bid = Some m ->
  (st = REL ->
     exists w',
       buttonChangeCB MOD REL e bid st pt w = Ok tt w'
       /\ ios (_ctx w') = <[Z.to_nat bid := set_valueUL (to_uint8 pt) m]> (ios (_ctx w))
       /\ (0 <= pt < 256 -> ios (_ctx w') !! Z.to_nat bid = Some (set_valueUL pt m))
       /\ trace w' = trace w
            ++ [SRMgr_getLastButtonReleaseTS (gpio m);
                SRMgr_getLastButtonPressTS (gpio m);
                SRMgr_getLastButtonPressType (gpio m);
                log LOG_INFO "MIO:button %d released, duration %d ms, press type:%d";
                AppCore_forceUL (MY_MOD_ID MOD)]
       /\ forced (trace w') = S (forced (trace w)))
  /\ (st <> REL ->
        exists w',
          buttonChangeCB MOD REL e bid st pt w = Ok tt w'
          /\ _ctx w' = _ctx w
          /\ trace w' = trace w ++ [log LOG_INFO "MIO:button pressed"]
          /\ forced (trace w') = forced (trace w)).
Proof.
  intros Hact Hbid Hm. unfold buttonChangeCB. split; intros Hst.
  - subst st. rewrite Z.eqb_refl, Hact, (in_range_true bid Hbid).
    destruct Hbid as [Hbid _]. destruct w as [[l] tr]. simpl in Hm.
    eexists. split; [io_run Hbid Hm; reflexivity|].
    cbn [_ctx ios trace]. split; [reflexivity|]. split; [|split].
    + intros Hpt. rewrite (to_uint8_small pt Hpt).
      apply list_lookup_insert_eq. by eapply lookup_lt_Some.
    + reflexivity.
    + rewrite forced_app. unfold forced at 2. simpl. lia.
  - destruct (Z.eqb_spec st REL) as [|_]; [contradiction|].
    eexists. split; [reflexivity|]. simpl. repeat split.
    rewrite forced_app. unfold forced at 2. simpl. lia.
Qed.

Lemma buttonChangeCB_edge_witness :
  (exists w',
     buttonChangeCB 7 0 env_high 1 0 2 board_out_button = Ok tt w'
     /\ ios (_ctx w') !! 1%nat = Some (Mio 6 "BTN1" IO_BUTTON 0 0 2)
     /\ forced (trace w') = 1%nat)
  /\ (exists w',
        buttonChangeCB 7 0 env_high 1 1 2 board_out_button = Ok tt w'
        /\ _ctx w' = _ctx board_out_button
        /\ forced (trace w') = 0%nat).
Proof.
  destruct (buttonChangeCB_edge 7 0 env_high 1 0 2 board_out_button
              (Mio 6 "BTN1" IO_BUTTON 0 0 0) eq_refl (conj (Z.le_0_1) eq_refl) eq_refl)
    as [Hrel _].
  destruct (buttonChangeCB_edge 7 0 env_high 1 1 2 board_out_button
              (Mio 6 "BTN1" IO_BUTTON 0 0 0) eq_refl (conj (Z.le_0_1) eq_refl) eq_refl)
    as [_ Hpress].
  destruct (Hrel eq_refl) as (w1 & H1 & _ & Hs & _ & Hf).
  destruct (Hpress ltac:(discriminate)) as (w2 & H2 & Hc & _ & Hf2).
  split.
  - exists w1. split; [exact H1|]. split; [apply Hs; split; [discriminate | reflexivity] | exact Hf].
  - exists w2. split; [exact H2|]. split; [exact Hc | exact Hf2].
Defined.

(** C8.  An edge event while the device is not active, or carrying a
    context that is not a slot index, is dropped by both callbacks:
    the context is unchanged, the only call is one log line, and no
    forced uplink is asked for. *)
Theorem edge_callbacks_ignored (MOD REL : Z) (e : env) (bid st pt : Z) (w : world) :
  AppCore_isDeviceActive e = false \/ ~ (0 <= bid < NB_IOS) ->
  (exists w' lvl msg,
     buttonChangeCB MOD REL e bid st pt w = Ok tt w'
     /\ _ctx w' = _ctx w
     /\ trace w' = trace w ++ [log lvl msg]
     /\ forced (trace w') = forced (trace w))
  /\ (exists w' lvl msg,
        stateInputChangeCB MOD e bid st pt w = Ok tt w'
        /\ _ctx w' = _ctx w
        /\ trace w' = trace w ++ [log lvl msg]
        /\ forced (trace w') = forced (trace w)).
Proof.
  intros Hdrop.
  assert (Hlog : forall lvl msg, forced (trace w ++ [log lvl msg]) = forced (trace w)).
  { intros lvl msg. rewrite forced_app. unfold forced at 2. simpl. lia. }
  unfold buttonChangeCB, stateInputChangeCB.
  split.
  - destruct (st =? REL); [|do 3 eexists; split; [reflexivity|]; simpl; auto].
    destruct (AppCore_isDeviceActive e) eqn:Hact;
      [|do 3 eexists; split; [reflexivity|]; simpl; auto].
    destruct Hdrop as [Hd|Hd]; [discriminate|].
    rewrite (in_range_false bid Hd).
    do 3 eexists; split; [reflexivity|]; simpl; auto.
  - destruct (AppCore_isDeviceActive e) eqn:Hact;
      [|do 3 eexists; split; [reflexivity|]; simpl; auto].
    destruct Hdrop as [Hd|Hd]; [discriminate|].
    rewrite (in_range_false bid Hd).
    do 3 eexists; split; [reflexivity|]; simpl; auto.
Qed.

Lemma edge_callbacks_ignored_witness :
  (exists w', buttonChangeCB 7 0 env_idle 1 0 2 board_out_button = Ok tt w'
              /\ _ctx w' = _ctx board_out_button /\ forced (trace w') = 0%nat)
  /\ (exists w', stateInputChangeCB 7 env_high 8 1 0 board_out_button = Ok tt w'
                 /\ _ctx w' = _ctx board_out_button /\ forced (trace w') = 0%nat).
Proof.
  destruct (edge_callbacks_ignored 7 0 env_idle 1 0 2 board_out_button (or_introl eq_refl))
    as [(w1 & l1 & m1 & H1 & Hc1 & _ & Hf1) _].
  destruct (edge_callbacks_ignored 7 0 env_high 8 1 0 board_out_button
              (or_intror (fun H : 0 <= 8 < NB_IOS => Z.lt_irrefl 8 (proj2 H))))
    as [_ (w2 & l2 & m2 & H2 & Hc2 & _ & Hf2)].
  split.
  - exists w1. split; [exact H1|]. split; [exact Hc1 | exact Hf1].
  - exists w2. split; [exact H2|]. split; [exact Hc2 | exact Hf2].
Defined.

(** ** Reading a slot *)

(** C9 as stated fails on the returned value: for a slot without a
    pin that holds [valueUL = 3], [readIO] returns 3, not 0. *)
Lemma readIO_unassigned_stale_counterexample :
  assigned (Mio (-1) "" IO_DIN 0 0 3) = false
  /\ ios (_ctx board_stale) !! 0%nat = Some (Mio (-1) "" IO_DIN 0 0 3)
  /\ readIO env_high 0 board_stale = Ok 3 board_stale.
Proof. repeat split. Qed.

(** C9, amended.  [readIO] returns 0 for an index outside the table;
    for a slot without a pin, and for a Button or StateInput slot, it
    returns the [valueUL] the slot holds.  In all these cases it makes
    no call and leaves the context as it was. *)
Theorem readIO_noop (e : env) (i : Z) (w : world) :
  (~ (0 <= i < NB_IOS) -> readIO e i w = Ok 0 w)
  /\ (forall m,
        0 <= i < NB_IOS -> ios (_ctx w) !! Z.to_nat i = Some m ->
        assigned m = false \/ type m = IO_BUTTON \/ type m = IO_STATE ->
        readIO e i w = Ok (valueUL m) w).
Proof.
  split; [apply readIO_invalid|].
  intros m Hi Hm Hkind. rewrite (readIO_valid e i w m Hi Hm).
  assert (Hs : readIO_slot e m = m /\ readIO_calls m = []).
  { unfold readIO_slot, readIO_calls, assigned in *.
    destruct (0 <=? gpio m); [|by split].
    destruct Hkind as [H|[H|H]]; [discriminate| |]; by rewrite H. }
  destruct Hs as [-> ->]. by rewrite upd_id.
Qed.

Lemma readIO_noop_witness :
  readIO env_high 8 board_out_button = Ok 0 board_out_button
  /\ readIO env_high 1 board_out_button = Ok 0 board_out_button
  /\ readIO env_high 0 board_stale = Ok 3 board_stale.
Proof.
  split; [|split].
  - apply (proj1 (readIO_noop env_high 8 board_out_button)).
    intros [_ H]. exact (Z.lt_irrefl 8 H).
  - apply (proj2 (readIO_noop env_high 1 board_out_button) (Mio 6 "BTN1" IO_BUTTON 0 0 0));
      [split; [discriminate | reflexivity] | reflexivity | right; left; reflexivity].
  - apply (proj2 (readIO_noop env_high 0 board_stale) (Mio (-1) "" IO_DIN 0 0 3));
      [split; [discriminate | reflexivity] | reflexivity | left; reflexivity].
Defined.

(** ** Slots without a pin *)














Lemma buttonChangeCB_cases MOD REL e bid st pt w :
  wf w ->
  exists tr, pins_assigned_or_query tr /\
    (buttonChangeCB MOD REL e bid st pt w = Ok tt (World (_ctx w) (trace w ++ tr))
     \/ exists mb, ios (_ctx w) !! Z.to_nat bid = Some mb
                   /\ buttonChangeCB MOD REL e bid st pt w
                      = Ok tt (upd w bid (set_valueUL (to_uint8 pt) mb) tr)).
Proof.
  intros Hwf. unfold buttonChangeCB.
  destruct (st =? REL);
    [|eexists; split; [|left; reflexivity]; by repeat constructor].
  destruct (AppCore_isDeviceActive e);
    [|eexists; split; [|left; reflexivity]; by repeat constructor].
  destruct (decide (0 <= bid < NB_IOS)) as [Hb|Hb].
  - rewrite (in_range_true bid Hb). destruct (wf_lookup w bid Hwf Hb) as [mb Hmb].
    exists [SRMgr_getLastButtonReleaseTS (gpio mb); SRMgr_getLastButtonPressTS (gpio mb);
            SRMgr_getLastButtonPressType (gpio mb);
            log LOG_INFO "MIO:button %d released, duration %d ms, press type:%d";
            AppCore_forceUL (MY_MOD_ID MOD)].
    split; [repeat (constructor; [first [by right | by left]|]); constructor|].
    right. exists mb. split; [exact Hmb|].
    destruct Hb as [Hb _]. destruct w as [[l] tr]. simpl in Hmb.
    io_run Hb Hmb. reflexivity.
  - rewrite (in_range_false bid Hb).
    eexists; split; [|left; reflexivity]; by repeat constructor.
Qed.

Lemma stateInputChangeCB_cases MOD e bid st pt w :
  wf w ->
  exists tr, pins_assigned tr /\
    (stateInputChangeCB MOD e bid st pt w = Ok tt (World (_ctx w) (trace w ++ tr))
     \/ exists mb, ios (_ctx w) !! Z.to_nat bid = Some mb
                   /\ stateInputChangeCB MOD e bid st pt w
                      = Ok tt (upd w bid (set_valueUL (to_uint8 st) mb) tr)).
Proof.
  intros Hwf. unfold stateInputChangeCB.
  destruct (AppCore_isDeviceActive e);
    [|eexists; split; [|left; reflexivity]; by repeat constructor].
  destruct (decide (0 <= bid < NB_IOS)) as [Hb|Hb].
  - rewrite (in_range_true bid Hb). destruct (wf_lookup w bid Hwf Hb) as [mb Hmb].
    exists [log LOG_INFO "MIO:state input %d changed to %d"; AppCore_forceUL (MY_MOD_ID MOD)].
    split; [by repeat constructor|]. right. exists mb. split; [exact Hmb|].
    destruct Hb as [Hb _]. destruct w as [[l] tr]. simpl in Hmb.
    io_run Hb Hmb. reflexivity.
  - rewrite (in_range_false bid Hb).
    eexists; split; [|left; reflexivity]; by repeat constructor.
Qed.




(** * Further properties of the module *)

(** ** Defining and initialising slots *)

(** X1.  [defineIO] on an index of the table rewrites that slot's pin
    (narrowed to [int8_t]: the given pin when it is in -128..127),
    name, kind, pull and [valueDL], keeps its [valueUL], and leaves
    every other slot, the size of the table and the trace as they
    were. *)
Theorem defineIO_populates (i g : Z) (n : string) (t : IO_TYPE) (p v : Z)
    (w : world) (m : mio) :
  0 <= i < NB_IOS -> ios (_ctx w) !! Z.to_nat i = Some m ->
  exists w',
    defineIO i g n t p v w = Ok tt w'
    /\ ios (_ctx w') !! Z.to_nat i = Some (Mio (to_int8 g) n t p v (valueUL m))
    /\ (-128 <= g < 128 ->
        ios (_ctx w') !! Z.to_nat i = Some (Mio g n t p v (valueUL m)))
    /\ (forall j : nat, j <> Z.to_nat i -> ios (_ctx w') !! j = ios (_ctx w) !! j)
    /\ length (ios (_ctx w')) = length (ios (_ctx w))
    /\ trace w' = trace w.
Proof.
  intros Hi Hm. eexists. split; [by eapply defineIO_in_range|].
  assert (Hlt : (Z.to_nat i < length (ios (_ctx w)))%nat) by (by eapply lookup_lt_Some).
  unfold upd; cbn [_ctx ios trace].
  split; [by apply list_lookup_insert_eq|].
  split; [intros Hg; rewrite (to_int8_small g Hg); by apply list_lookup_insert_eq|].
  split; [intros j Hj; by apply list_lookup_insert_ne|].
  split; [apply length_insert | apply app_nil_r].
Qed.

Lemma defineIO_populates_witness :
  exists w',
    defineIO 1 7 "IN1" IO_AIN 1 0 board_din = Ok tt w'
    /\ ios (_ctx w') !! 1%nat = Some (Mio 7 "IN1" IO_AIN 1 0 0)
    /\ ios (_ctx w') !! 0%nat = Some (Mio 5 "IN0" IO_DIN 0 0 0).
Proof.
  destruct (defineIO_populates 1 7 "IN1" IO_AIN 1 0 board_din no_io
              (conj Z.le_0_1 eq_refl) eq_refl)
    as (w' & Hrun & _ & Hslot & Hother & _).
  exists w'. split; [exact Hrun|]. split.
  - apply Hslot. split; [discriminate | reflexivity].
  - rewrite (Hother 0%nat); [reflexivity | discriminate].
Defined.

Lemma In_concat_mapi {A B} (g : Z -> A -> list B) (x : B) :
  forall l k, In x (concat (mapi g k l)) ->
    exists (j : nat) a, l !! j = Some a /\ In x (g (k + Z.of_nat j) a).
Proof.
  intros l. induction l as [|a r IH]; intros k Hin; simpl in Hin; [contradiction|].
  apply in_app_or in Hin. destruct Hin as [Hin|Hin].
  - exists 0%nat, a. split; [reflexivity|]. by rewrite Z.add_0_r.
  - destruct (IH _ Hin) as (j & b & Hb & Hx).
    exists (S j), b. split; [exact Hb|].
    by replace (k + Z.of_nat (S j)) with (k + 1 + Z.of_nat j) by lia.
Qed.

(** X2.  [initIOs] leaves the context as it was, and every callback it
    registers with the button manager carries as context the index of
    a slot of the table: that slot has the registered pin, which is
    not negative, and the kind the callback serves ([IO_BUTTON] for
    [buttonChangeCB], [IO_STATE] for [stateInputChangeCB]). *)
Theorem initIOs_registrations (LP HZ : Z) (w : world) :
  wf w ->
  exists tr,
    initIOs LP HZ w = Ok tt (World (_ctx w) (trace w ++ tr))
    /\ forall pin cb ctx,
         In (SRMgr_registerButtonCB pin cb ctx) tr ->
         0 <= ctx < NB_IOS
         /\ exists m, ios (_ctx w) !! Z.to_nat ctx = Some m
                      /\ gpio m = pin /\ 0 <= pin /\ type m = callback_kind cb.
Proof.
  intros Hwf. eexists. split; [by apply initIOs_spec|].
  intros pin cb ctx Hin.
  destruct (In_concat_mapi _ _ _ _ Hin) as (j & m & Hm & Hev).
  assert (Hj : (j < Z.to_nat NB_IOS)%nat) by (rewrite <- Hwf; by eapply lookup_lt_Some).
  unfold initIO_calls in Hev.
  destruct (Z.leb_spec 0 (gpio m)) as [Hg|Hg]; [|contradiction].
  destruct (type m) eqn:Ht; simpl in Hev;
    repeat (destruct Hev as [Hev|Hev]; [try discriminate|]); try contradiction;
    inversion Hev; subst; rewrite Z.add_0_l, Nat2Z.id;
    (split; [unfold NB_IOS in *; lia|]); exists m; by rewrite Ht.
Qed.

Lemma initIOs_registrations_witness :
  wf board_out_button
  /\ exists tr,
       initIOs 1 2 board_out_button = Ok tt (World (_ctx board_out_button) tr)
       /\ In (SRMgr_registerButtonCB 6 CB_buttonChangeCB 1) tr.
Proof.
  split; [reflexivity|].
  destruct (initIOs_registrations 1 2 board_out_button eq_refl) as (tr & Hrun & _).
  exists tr. split; [exact Hrun|].
  assert (E : Ok tt (World (_ctx board_out_button) (trace board_out_button ++ tr))
              = initIOs 1 2 board_out_button) by (symmetry; exact Hrun).
  vm_compute in E. inversion E. right. right. left. reflexivity.
Defined.

(** X3.  A slot defined with a pin in 0..127 is configured by the next
    [initIOs] according to its kind: a DigitalOut is declared as an
    output driven to the initial value given to [defineIO], an input
    is declared with the given pull, an analog input with its pin as
    channel, a Button or StateInput has its callback registered with
    the slot index as context. *)
Theorem defineIO_then_initIOs (LP HZ : Z) (i g : Z) (n : string) (t : IO_TYPE)
    (p v : Z) (w : world) :
  wf w -> 0 <= i < NB_IOS -> 0 <= g < 128 ->
  exists w1 w2,
    defineIO i g n t p v w = Ok tt w1
    /\ initIOs LP HZ w1 = Ok tt w2
    /\ _ctx w2 = _ctx w1
    /\ (t = IO_DOUT -> In (GPIO_define_out n g v LP HZ) (trace w2))
    /\ (t = IO_DIN -> In (GPIO_define_in n g p LP HZ) (trace w2))
    /\ (t = IO_AIN -> In (GPIO_define_adc n g g LP HZ) (trace w2))
    /\ (t = IO_BUTTON -> In (SRMgr_registerButtonCB g CB_buttonChangeCB i) (trace w2))
    /\ (t = IO_STATE -> In (SRMgr_registerButtonCB g CB_stateInputChangeCB i) (trace w2)).
Proof.
  intros Hwf Hi Hg.
  destruct (wf_lookup w i Hwf Hi) as [m Hm].
  assert (Hlt : (Z.to_nat i < length (ios (_ctx w)))%nat) by (by eapply lookup_lt_Some).
  set (m1 := Mio (to_int8 g) n t p v (valueUL m)).
  assert (Hwf1 : wf (upd w i m1 [])) by (unfold wf, upd in *; simpl; by rewrite length_insert).
  exists (upd w i m1 []). eexists.
  split; [by eapply defineIO_in_range|].
  split; [by apply initIOs_spec|].
  split; [reflexivity|].
  assert (Hcalls : forall ev, In ev (initIO_calls LP HZ i m1) ->
            In ev (trace (upd w i m1 [])
                   ++ concat (mapi (initIO_calls LP HZ) 0 (ios (_ctx (upd w i m1 [])))))).
  { intros ev Hev. apply in_or_app. right.
    apply (concat_lookup_In _ (Z.to_nat i) (initIO_calls LP HZ i m1)); [|exact Hev].
    rewrite mapi_lookup, upd_lookup by exact Hlt. simpl.
    rewrite Z.add_0_l, Z2Nat.id by lia. reflexivity. }
  cbn [trace] in *.
  assert (Hpin : (0 <=? gpio m1) = true).
  { subst m1; simpl. rewrite to_int8_small by lia. apply Z.leb_le. lia. }
  assert (Hgp : gpio m1 = g) by (subst m1; simpl; apply to_int8_small; lia).
  unfold initIO_calls in Hcalls. rewrite Hpin, Hgp in Hcalls. subst m1. simpl in Hcalls.
  repeat split; intros ->; apply Hcalls; simpl; auto.
Qed.

Lemma defineIO_then_initIOs_witness :
  wf board_din
  /\ exists w1 w2,
       defineIO 3 9 "OUT3" IO_DOUT 0 1 board_din = Ok tt w1
       /\ initIOs 1 2 w1 = Ok tt w2
       /\ In (GPIO_define_out "OUT3" 9 1 1 2) (trace w2).
Proof.
  split; [reflexivity|].
  assert (Hi : 0 <= 3 < NB_IOS) by (split; [discriminate | reflexivity]).
  assert (Hg : 0 <= 9 < 128) by (split; [discriminate | reflexivity]).
  destruct (defineIO_then_initIOs 1 2 3 9 "OUT3" IO_DOUT 0 1 board_din eq_refl Hi Hg)
    as (w1 & w2 & H1 & H2 & _ & Hout & _).
  exists w1, w2. split; [exact H1|]. split; [exact H2 | exact (Hout eq_refl)].
Defined.

(** ** Polling inputs *)

(** X4.  [readIO] on a DigitalIn (AnalogIn) slot with a pin asks the
    driver once for that pin, stores the low eight bits of the answer
    in the slot's [valueUL] and returns them: the result is in 0..255
    and an ADC reading of 256 or more is reported reduced modulo 256.
    No other slot and no other field changes. *)
Theorem readIO_sample (e : env) (i : Z) (w : world) (m : mio) :
  0 <= i < NB_IOS -> ios (_ctx w) !! Z.to_nat i = Some m -> assigned m = true ->
  (type m = IO_DIN ->
     readIO e i w
     = Ok (to_uint8 (GPIO_read_ret e (gpio m)))
          (World (Appctx (<[Z.to_nat i := set_valueUL (to_uint8 (GPIO_read_ret e (gpio m))) m]>
                            (ios (_ctx w))))
                 (trace w ++ [GPIO_read (gpio m)]))
     /\ is_byte (to_uint8 (GPIO_read_ret e (gpio m))))
  /\ (type m = IO_AIN ->
        readIO e i w
        = Ok (to_uint8 (GPIO_readADC_ret e (gpio m)))
             (World (Appctx (<[Z.to_nat i := set_valueUL (to_uint8 (GPIO_readADC_ret e (gpio m))) m]>
                               (ios (_ctx w))))
                    (trace w ++ [GPIO_readADC (gpio m)]))
        /\ is_byte (to_uint8 (GPIO_readADC_ret e (gpio m)))).
Proof.
  intros Hi Hm Ha. unfold assigned in Ha.
  split; intros Ht; (split; [|apply to_uint8_range]);
    rewrite (readIO_valid e i w m Hi Hm);
    unfold readIO_slot, readIO_calls, upd; by rewrite Ha, Ht.
Qed.

Lemma readIO_sample_witness :
  readIO (Env (fun _ => 1) (fun _ => 300) true) 0
    (World (Appctx [Mio 4 "AIN0" IO_AIN 0 0 0]) [])
  = Ok 44 (World (Appctx [Mio 4 "AIN0" IO_AIN 0 0 44]) [GPIO_readADC 4]).
Proof.
  apply (proj2 (readIO_sample (Env (fun _ => 1) (fun _ => 300) true) 0
                  (World (Appctx [Mio 4 "AIN0" IO_AIN 0 0 0]) [])
                  (Mio 4 "AIN0" IO_AIN 0 0 0)
                  (conj (Z.le_refl 0) eq_refl) eq_refl eq_refl) eq_refl).
Defined.

Lemma readIO_slot_idem e m : readIO_slot e (readIO_slot e m) = readIO_slot e m.
Proof.
  unfold readIO_slot. destruct m as [g n t p dl ul]; simpl.
  destruct (0 <=? g) eqn:Hg; simpl; [|by rewrite Hg].
  destruct t; simpl; by rewrite Hg.
Qed.

Lemma readIO_calls_slot e m : readIO_calls (readIO_slot e m) = readIO_calls m.
Proof.
  unfold readIO_calls, readIO_slot. destruct m as [g n t p dl ul]; simpl.
  destruct (0 <=? g) eqn:Hg; simpl; [|by rewrite Hg].
  destruct t; simpl; by rewrite Hg.
Qed.

(** X5.  Polling is idempotent on the table: a second [readIOs] in the
    same environment repeats the same driver calls and leaves the
    context exactly as the first one left it. *)
Theorem readIOs_idempotent (e : env) (w : world) :
  wf w ->
  exists w1 calls,
    readIOs e w = Ok tt w1
    /\ trace w1 = trace w ++ calls
    /\ readIOs e w1 = Ok tt (World (_ctx w1) (trace w1 ++ calls)).
Proof.
  intros Hwf. eexists. eexists. split; [by apply readIOs_spec|].
  cbn [_ctx ios trace]. split; [reflexivity|].
  rewrite readIOs_spec by (unfold wf in *; simpl; by rewrite length_map).
  cbn [_ctx ios trace]. rewrite !map_map. do 3 f_equal.
  - apply map_ext. intros m. apply readIO_slot_idem.
  - f_equal. apply map_ext. intros m. apply readIO_calls_slot.
Qed.

Lemma readIOs_idempotent_witness :
  wf board_din
  /\ exists w1 calls,
       readIOs env_high board_din = Ok tt w1
       /\ trace w1 = trace board_din ++ calls
       /\ readIOs env_high w1 = Ok tt (World (_ctx w1) (trace w1 ++ calls)).
Proof. split; [reflexivity|]. apply (readIOs_idempotent env_high board_din eq_refl). Defined.

(** X6.  An output slot is never read back: after a downlink set has
    been applied, [readIO] on a DigitalOut or PwmOut slot makes no
    call, changes nothing, and returns the [valueUL] the slot held
    before the downlink, not the byte just commanded. *)
Theorem readIO_after_iosetAction (e : env) (v : list Z) (w : world) (i : Z) (m : mio) :
  wf w -> length v = Z.to_nat NB_IOS ->
  0 <= i < NB_IOS -> ios (_ctx w) !! Z.to_nat i = Some m ->
  is_output (type m) = true ->
  exists w1 b,
    iosetAction v NB_IOS w = Ok tt w1
    /\ v !! Z.to_nat i = Some b
    /\ ios (_ctx w1) !! Z.to_nat i = Some (set_valueDL b m)
    /\ readIO e i w1 = Ok (valueUL m) w1.
Proof.
  intros Hwf Hv Hi Hm Hout.
  destruct (lookup_lt_is_Some_2 v (Z.to_nat i)) as [b Hb]; [unfold NB_IOS in *; lia|].
  eexists. exists b. split; [by apply iosetAction_spec|].
  split; [exact Hb|].
  assert (Hslot : zip_with ioset_slot v (ios (_ctx w)) !! Z.to_nat i = Some (set_valueDL b m)).
  { rewrite lookup_zip_with, Hb, Hm. simpl. unfold ioset_slot. by rewrite Hout. }
  split; [exact Hslot|].
  match goal with
  | |- readIO e i ?w1 = _ => rewrite (readIO_valid e i w1 (set_valueDL b m) Hi Hslot)
  end.
  assert (Hs : readIO_slot e (set_valueDL b m) = set_valueDL b m
               /\ readIO_calls (set_valueDL b m) = []).
  { unfold readIO_slot, readIO_calls. simpl.
    destruct (0 <=? gpio m); [|by split].
    destruct (type m); try discriminate; by split. }
  destruct Hs as [-> ->]. by rewrite upd_id.
Qed.

Lemma readIO_after_iosetAction_witness :
  exists w1,
    iosetAction [1; 0; 0; 0; 0; 0; 0; 0] NB_IOS board_out_button = Ok tt w1
    /\ ios (_ctx w1) !! 0%nat = Some (Mio 5 "OUT0" IO_DOUT 0 1 0)
    /\ readIO env_high 0 w1 = Ok 0 w1.
Proof.
  destruct (readIO_after_iosetAction env_high [1; 0; 0; 0; 0; 0; 0; 0] board_out_button 0
              (Mio 5 "OUT0" IO_DOUT 0 0 0) eq_refl eq_refl
              (conj (Z.le_refl 0) eq_refl) eq_refl eq_refl)
    as (w1 & b & Hrun & Hb & Hslot & Hread).
  exists w1. split; [exact Hrun|]. split; [|exact Hread].
  simpl in Hb. inversion Hb; subst b. exact Hslot.
Defined.

(** ** What stays fixed *)

Lemma same_config_refl m : same_config m m.
Proof. by repeat split. Qed.

Lemma config_kept_same {A} (c : M A) w a tr :
  c w = Ok a (World (_ctx w) tr) -> wf w -> config_kept c w.
Proof.
  intros Hc Hwf. exists a, (World (_ctx w) tr). split; [exact Hc|]. split; [exact Hwf|].
  intros i m Hm. exists m. split; [exact Hm | apply same_config_refl].
Qed.

Lemma config_kept_upd {A} (c : M A) w a j mj tr :
  c w = Ok a (upd w j mj tr) -> wf w ->
  (forall m, ios (_ctx w) !! Z.to_nat j = Some m -> same_config m mj) ->
  config_kept c w.
Proof.
  intros Hc Hwf Hj. exists a, (upd w j mj tr). split; [exact Hc|].
  split; [unfold wf, upd in *; simpl; by rewrite length_insert|].
  intros i m Hm. unfold upd; simpl.
  destruct (decide (Z.to_nat j = i)) as [Heq|Hne].
  - exists mj. split; [|apply Hj; by rewrite Heq].
    rewrite Heq. apply list_lookup_insert_eq. by eapply lookup_lt_Some.
  - exists m. split; [by rewrite list_lookup_insert_ne | apply same_config_refl].
Qed.

Lemma config_kept_map {A} (c : M A) w a (f : mio -> mio) tr :
  c w = Ok a (World (Appctx (map f (ios (_ctx w)))) tr) -> wf w ->
  (forall m, same_config m (f m)) -> config_kept c w.
Proof.
  intros Hc Hwf Hf. exists a, (World (Appctx (map f (ios (_ctx w)))) tr).
  split; [exact Hc|]. split; [unfold wf in *; simpl; by rewrite length_map|].
  intros i m Hm. exists (f m). split; [|apply Hf].
  simpl. change map with (@fmap list _). by rewrite list_lookup_fmap, Hm.
Qed.

Lemma same_config_readIO_slot e m : same_config m (readIO_slot e m).
Proof.
  unfold readIO_slot. destruct (0 <=? gpio m); [destruct (type m)|]; by repeat split.
Qed.

Lemma same_config_ioset_slot b m : same_config m (ioset_slot b m).
Proof. unfold ioset_slot. destruct (is_output (type m)); by repeat split. Qed.

(** X7.  Pin, name, kind and pull of every slot, and the size of the
    table, are fixed once the slots are defined: [initIOs], [readIO],
    [writeIO], [readIOs], [iosetAction], [getData] and both edge
    callbacks all return and leave them as they were, whatever their
    arguments. *)
Theorem configuration_fixed (MOD TAG REL LP HZ : Z) (e : env) (w : world) :
  wf w ->
  config_kept (initIOs LP HZ) w
  /\ (forall j, config_kept (readIO e j) w)
  /\ (forall j val, config_kept (writeIO j val) w)
  /\ config_kept (readIOs e) w
  /\ (forall v, config_kept (iosetAction v (Z.of_nat (length v))) w)
  /\ config_kept (getData TAG e) w
  /\ (forall bid st pt, config_kept (buttonChangeCB MOD REL e bid st pt) w)
  /\ (forall bid st pt, config_kept (stateInputChangeCB MOD e bid st pt) w).
Proof.
  intros Hwf.
  split; [|split; [|split; [|split; [|split; [|split; [|split]]]]]].
  - eapply config_kept_same; [by apply initIOs_spec | exact Hwf].
  - intros j. destruct (decide (0 <= j < NB_IOS)) as [Hj|Hj].
    + destruct (wf_lookup w j Hwf Hj) as [mj Hmj].
      eapply config_kept_upd; [by apply readIO_valid | exact Hwf |].
      intros m Hm. rewrite Hmj in Hm. inversion Hm; subst. apply same_config_readIO_slot.
    + eapply (config_kept_same _ w 0 (trace w)); [|exact Hwf].
      rewrite readIO_invalid by exact Hj. by destruct w.
  - intros j val. destruct (decide (0 <= j < NB_IOS)) as [Hj|Hj].
    + destruct (wf_lookup w j Hwf Hj) as [mj Hmj].
      eapply config_kept_same; [by apply writeIO_valid | exact Hwf].
    + eapply (config_kept_same _ w tt (trace w)); [|exact Hwf].
      rewrite writeIO_invalid by exact Hj. by destruct w.
  - eapply config_kept_map; [by apply readIOs_spec | exact Hwf |].
    apply same_config_readIO_slot.
  - intros v. destruct (decide (Z.of_nat (length v) = NB_IOS)) as [Hv|Hv].
    + rewrite Hv. assert (Hlen : length v = Z.to_nat NB_IOS) by lia.
      exists tt. eexists. split; [by apply iosetAction_spec|].
      split; [unfold wf in *; simpl; rewrite length_zip_with; lia|].
      intros i m Hm. cbn [_ctx ios].
      destruct (lookup_lt_is_Some_2 v i) as [b Hb].
      { rewrite Hlen, <- Hwf. by eapply lookup_lt_Some. }
      exists (ioset_slot b m). split; [by rewrite lookup_zip_with, Hb, Hm|].
      apply same_config_ioset_slot.
    + eapply config_kept_same; [|exact Hwf].
      unfold iosetAction. destruct (Z.eqb_spec (Z.of_nat (length v)) NB_IOS); [done|].
      reflexivity.
  - exists true. eexists. split; [by apply getData_spec|].
    split; [unfold wf in *; simpl; by rewrite !length_map|].
    intros i m Hm. cbn [_ctx ios]. exists (set_valueUL 0 (readIO_slot e m)).
    split; [change map with (@fmap list _); by rewrite !list_lookup_fmap, Hm|].
    destruct (same_config_readIO_slot e m) as (H1 & H2 & H3 & H4). by repeat split.
  - intros bid st pt.
    destruct (buttonChangeCB_cases MOD REL e bid st pt w Hwf) as (tr & _ & [Hc | (mb & Hmb & Hc)]).
    + eapply config_kept_same; eauto.
    + eapply config_kept_upd; [exact Hc | exact Hwf |].
      intros m Hm. rewrite Hmb in Hm. inversion Hm; subst. by repeat split.
  - intros bid st pt.
    destruct (stateInputChangeCB_cases MOD e bid st pt w Hwf) as (tr & _ & [Hc | (mb & Hmb & Hc)]).
    + eapply config_kept_same; eauto.
    + eapply config_kept_upd; [exact Hc | exact Hwf |].
      intros m Hm. rewrite Hmb in Hm. inversion Hm; subst. by repeat split.
Qed.

Lemma configuration_fixed_witness :
  wf board_out_button
  /\ config_kept (getData 240 env_high) board_out_button
  /\ config_kept (buttonChangeCB 7 0 env_high 1 0 2) board_out_button.
Proof.
  split; [reflexivity|].
  destruct (configuration_fixed 7 240 0 1 2 env_high board_out_button eq_refl)
    as (_ & _ & _ & _ & _ & Hget & Hcb & _).
  split; [exact Hget | exact (Hcb 1 0 2)].
Defined.

(** X8.  [writeIO] never changes the context, for any index and
    value.  It makes one driver call, a [GPIO_write] on the slot's
    pin, when the index names a DigitalOut slot with a pin, and no
    call at all otherwise; in particular nothing is written for a
    PwmOut slot. *)
Theorem writeIO_frame (i val : Z) (w : world) :
  wf w ->
  exists tr,
    writeIO i val w = Ok tt (World (_ctx w) (trace w ++ tr))
    /\ ((exists m, 0 <= i < NB_IOS /\ ios (_ctx w) !! Z.to_nat i = Some m
                   /\ type m = IO_DOUT /\ 0 <= gpio m
                   /\ tr = [GPIO_write (gpio m) (valueDL m)])
        \/ (tr = []
            /\ forall m, 0 <= i < NB_IOS -> ios (_ctx w) !! Z.to_nat i = Some m ->
                         type m <> IO_DOUT \/ gpio m < 0)).
Proof.
  intros Hwf. destruct (decide (0 <= i < NB_IOS)) as [Hi|Hi].
  - destruct (wf_lookup w i Hwf Hi) as [m Hm].
    exists (writeIO_calls m). split; [by apply writeIO_valid|].
    unfold writeIO_calls.
    destruct (Z.leb_spec 0 (gpio m)) as [Hg|Hg].
    + destruct (type m) eqn:Ht;
        try (right; split; [reflexivity|]; intros m' _ Hm'; rewrite Hm in Hm';
             inversion Hm'; subst; left; congruence).
      left. exists m. destruct Hi. repeat split; auto.
    + right. split; [reflexivity|]. intros m' _ Hm'. rewrite Hm in Hm'.
      inversion Hm'; subst. by right.
  - exists []. split.
    + rewrite writeIO_invalid, app_nil_r by exact Hi. by destruct w.
    + right. split; [reflexivity|]. intros m Hi'. contradiction.
Qed.

Lemma writeIO_frame_witness :
  wf board_out_button
  /\ writeIO 1 1 board_out_button = Ok tt board_out_button.
Proof.
  split; [reflexivity|].
  destruct (writeIO_frame 1 1 board_out_button eq_refl) as (tr & Hrun & Hcase).
  rewrite Hrun.
  destruct Hcase as [(m & _ & Hm & Ht & _) | [-> _]].
  - exfalso. change (Some (Mio 6 "BTN1" IO_BUTTON 0 0 0) = Some m) in Hm.
    inversion Hm; subst m. discriminate Ht.
  - reflexivity.
Defined.

(** ** Downlink sets *)

Lemma filter_writes_ioset_calls b m :
  List.filter is_GPIO_write (ioset_calls b m) = dl_writes b m.
Proof.
  unfold ioset_calls, dl_writes, writeIO_calls, assigned. simpl.
  destruct (type m); simpl; try (by destruct (0 <=? gpio m)).
Qed.

Lemma filter_writes_zip (v : list Z) :
  forall l : list mio,
    List.filter is_GPIO_write (concat (zip_with ioset_calls v l))
    = concat (zip_with dl_writes v l).
Proof.
  induction v as [|b v IH]; intros [|m l]; simpl; try reflexivity.
  by rewrite List.filter_app, IH, filter_writes_ioset_calls.
Qed.

(** X9.  The lines written by a downlink set of [NB_IOS] bytes are
    exactly, in slot order, one [GPIO_write] of byte [i] on the pin of
    every DigitalOut slot [i] that has a pin; no line is written for
    a slot of another kind or without a pin, whatever its byte. *)
Theorem iosetAction_writes (v : list Z) (w : world) :
  wf w -> length v = Z.to_nat NB_IOS ->
  exists w' calls,
    iosetAction v NB_IOS w = Ok tt w'
    /\ trace w' = trace w ++ calls
    /\ List.filter is_GPIO_write calls = concat (zip_with dl_writes v (ios (_ctx w))).
Proof.
  intros Hwf Hv. eexists. eexists. split; [by apply iosetAction_spec|].
  cbn [trace]. split; [reflexivity|].
  rewrite List.filter_app, filter_writes_zip. simpl. apply app_nil_r.
Qed.

Lemma iosetAction_writes_witness :
  wf board_out_button
  /\ exists w' calls,
       iosetAction [1; 1; 1; 1; 1; 1; 1; 1] NB_IOS board_out_button = Ok tt w'
       /\ trace w' = trace board_out_button ++ calls
       /\ List.filter is_GPIO_write calls = [GPIO_write 5 1].
Proof.
  split; [reflexivity|].
  apply (iosetAction_writes [1; 1; 1; 1; 1; 1; 1; 1] board_out_button eq_refl eq_refl).
Defined.

Lemma ioset_slot_twice b1 b2 m : ioset_slot b2 (ioset_slot b1 m) = ioset_slot b2 m.
Proof.
  unfold ioset_slot. destruct m as [g n t p dl ul]; simpl.
  destruct (is_output t) eqn:Ht; simpl; by rewrite Ht.
Qed.

Lemma zip_ioset_twice (l : list mio) :
  forall v1 v2 : list Z,
    length v1 = length l ->
    zip_with ioset_slot v2 (zip_with ioset_slot v1 l) = zip_with ioset_slot v2 l.
Proof.
  induction l as [|m l IH]; intros [|b1 v1] [|b2 v2] Hlen; simpl in *;
    try reflexivity; try discriminate.
  rewrite ioset_slot_twice, IH by lia. reflexivity.
Qed.

(** X10.  The last downlink set wins: applying a set of [NB_IOS]
    bytes and then a second one leaves the same context as applying
    the second one alone. *)
Theorem iosetAction_last_wins (v1 v2 : list Z) (w : world) :
  wf w -> length v1 = Z.to_nat NB_IOS -> length v2 = Z.to_nat NB_IOS ->
  exists w1 w2 w2',
    iosetAction v1 NB_IOS w = Ok tt w1
    /\ iosetAction v2 NB_IOS w1 = Ok tt w2
    /\ iosetAction v2 NB_IOS w = Ok tt w2'
    /\ _ctx w2 = _ctx w2'.
Proof.
  intros Hwf H1 H2. eexists. eexists. eexists.
  split; [by apply iosetAction_spec|].
  split; [apply iosetAction_spec; [|exact H2]|].
  { unfold wf in *; simpl. rewrite length_zip_with. lia. }
  split; [by apply iosetAction_spec|].
  cbn [_ctx ios]. f_equal. apply zip_ioset_twice. unfold wf in Hwf. lia.
Qed.

Lemma iosetAction_last_wins_witness :
  wf board_out_button
  /\ exists w1 w2 w2',
       iosetAction [1; 1; 0; 0; 0; 0; 0; 0] NB_IOS board_out_button = Ok tt w1
       /\ iosetAction [0; 1; 0; 0; 0; 0; 0; 0] NB_IOS w1 = Ok tt w2
       /\ iosetAction [0; 1; 0; 0; 0; 0; 0; 0] NB_IOS board_out_button = Ok tt w2'
       /\ _ctx w2 = _ctx w2'.
Proof.
  split; [reflexivity|].
  apply (iosetAction_last_wins [1; 1; 0; 0; 0; 0; 0; 0] [0; 1; 0; 0; 0; 0; 0; 0]
           board_out_button eq_refl eq_refl eq_refl).
Defined.

Lemma map_zip_with_same {A B} (F : mio -> A) (G : B -> mio -> mio) :
  (forall b m, F (G b m) = F m) ->
  forall (l : list mio) (v : list B),
    length v = length l -> map F (zip_with G v l) = map F l.
Proof.
  intros HF l. induction l as [|m l IH]; intros [|b v] Hlen; simpl in *;
    try reflexivity; try discriminate.
  rewrite HF, IH by lia. reflexivity.
Qed.

Lemma readIO_slot_ioset e b m :
  valueUL (readIO_slot e (ioset_slot b m)) = valueUL (readIO_slot e m).
Proof.
  unfold readIO_slot, ioset_slot. destruct m as [g n t p dl ul]; simpl.
  destruct t; simpl; by destruct (0 <=? g).
Qed.

Lemma readIO_calls_ioset b m : readIO_calls (ioset_slot b m) = readIO_calls m.
Proof.
  unfold readIO_calls, ioset_slot. destruct m as [g n t p dl ul]; simpl.
  destruct t; simpl; by destruct (0 <=? g).
Qed.

(** X11.  A downlink set does not disturb the uplink side: the report
    built by [getData] after a set of [NB_IOS] bytes has been applied
    carries the same bytes, after the same driver reads, as the
    report built without it. *)
Theorem iosetAction_keeps_report (TAG : Z) (e : env) (v : list Z) (w : world) :
  wf w -> length v = Z.to_nat NB_IOS ->
  exists w1 w2 w3 calls ds,
    iosetAction v NB_IOS w = Ok tt w1
    /\ getData TAG e w1 = Ok true w2
    /\ getData TAG e w = Ok true w3
    /\ trace w2 = trace w1 ++ calls ++ [app_core_msg_ul_addTLV (UL_APP_IO_STATE TAG) 12 ds]
    /\ trace w3 = trace w ++ calls ++ [app_core_msg_ul_addTLV (UL_APP_IO_STATE TAG) 12 ds].
Proof.
  intros Hwf Hv.
  assert (Hlen : length v = length (ios (_ctx w))) by (unfold wf in Hwf; lia).
  eexists. eexists. eexists.
  exists ([log LOG_INFO "MIO: UL "] ++ concat (map readIO_calls (ios (_ctx w)))).
  eexists.
  split; [by apply iosetAction_spec|].
  split; [apply getData_spec; unfold wf in *; simpl; rewrite length_zip_with; lia|].
  split; [by apply getData_spec|].
  cbn [_ctx ios trace].
  rewrite (map_zip_with_same readIO_calls ioset_slot readIO_calls_ioset _ _ Hlen).
  rewrite !map_map.
  rewrite (map_zip_with_same (fun m => valueUL (readIO_slot e m)) ioset_slot
             (readIO_slot_ioset e) _ _ Hlen).
  split; by rewrite <- !app_assoc.
Qed.

Lemma iosetAction_keeps_report_witness :
  wf board_out_button
  /\ exists w1 w2 w3 calls ds,
       iosetAction [1; 1; 1; 1; 1; 1; 1; 1] NB_IOS board_out_button = Ok tt w1
       /\ getData 240 env_high w1 = Ok true w2
       /\ getData 240 env_high board_out_button = Ok true w3
       /\ trace w2 = trace w1 ++ calls ++ [app_core_msg_ul_addTLV 240 12 ds]
       /\ trace w3 = trace board_out_button ++ calls ++ [app_core_msg_ul_addTLV 240 12 ds].
Proof.
  split; [reflexivity|].
  apply (iosetAction_keeps_report 240 env_high [1; 1; 1; 1; 1; 1; 1; 1]
           board_out_button eq_refl eq_refl).
Defined.

(** ** Edge events and the reports that follow *)

(** X12.  While the device is active and the context names a slot of
    the table, the state-change callback acts on every state, pressed
    or released, and whatever the press type: it stores the state (as
    a [uint8_t]) in the slot's [valueUL], touches nothing else, and
    asks once for a forced uplink with [MY_MOD_ID]. *)
Theorem stateInputChangeCB_edge (MOD : Z) (e : env) (bid st pt : Z) (w : world) (m : mio) :
  AppCore_isDeviceActive e = true ->
  0 <= bid < NB_IOS ->
  ios (_ctx w) !! Z.to_nat bid = Some m ->
  exists w',
    stateInputChangeCB MOD e bid st pt w = Ok tt w'
    /\ ios (_ctx w') = <[Z.to_nat bid := set_valueUL (to_uint8 st) m]> (ios (_ctx w))
    /\ (0 <= st < 256 -> ios (_ctx w') !! Z.to_nat bid = Some (set_valueUL st m))
    /\ trace w' = trace w
         ++ [log LOG_INFO "MIO:state input %d changed to %d"; AppCore_forceUL (MY_MOD_ID MOD)]
    /\ forced (trace w') = S (forced (trace w)).
Proof.
  intros Hact Hbid Hm. unfold stateInputChangeCB.
  rewrite Hact, (in_range_true bid Hbid).
  destruct Hbid as [Hbid _]. destruct w as [[l] tr]. simpl in Hm.
  eexists. split; [io_run Hbid Hm; reflexivity|].
  cbn [_ctx ios trace]. split; [reflexivity|]. split; [|split].
  - intros Hst. rewrite (to_uint8_small st Hst).
    apply list_lookup_insert_eq. by eapply lookup_lt_Some.
  - reflexivity.
  - rewrite forced_app. unfold forced at 2. simpl. lia.
Qed.

Lemma stateInputChangeCB_edge_witness :
  exists w',
    stateInputChangeCB 7 env_high 1 1 0 board_out_button = Ok tt w'
    /\ ios (_ctx w') !! 1%nat = Some (Mio 6 "BTN1" IO_BUTTON 0 0 1)
    /\ forced (trace w') = 1%nat.
Proof.
  destruct (stateInputChangeCB_edge 7 env_high 1 1 0 board_out_button
              (Mio 6 "BTN1" IO_BUTTON 0 0 0) eq_refl (conj Z.le_0_1 eq_refl) eq_refl)
    as (w' & Hrun & _ & Hslot & _ & Hf).
  exists w'. split; [exact Hrun|].
  split; [apply Hslot; split; [discriminate | reflexivity] | exact Hf].
Defined.

Lemma buttonChangeCB_release MOD REL e bid pt w m :
  AppCore_isDeviceActive e = true -> 0 <= bid < NB_IOS ->
  ios (_ctx w) !! Z.to_nat bid = Some m ->
  buttonChangeCB MOD REL e bid REL pt w
  = Ok tt (upd w bid (set_valueUL (to_uint8 pt) m)
             [SRMgr_getLastButtonReleaseTS (gpio m); SRMgr_getLastButtonPressTS (gpio m);
              SRMgr_getLastButtonPressType (gpio m);
              log LOG_INFO "MIO:button %d released, duration %d ms, press type:%d";
              AppCore_forceUL (MY_MOD_ID MOD)]).
Proof.
  intros Hact Hbid Hm. unfold buttonChangeCB.
  rewrite Z.eqb_refl, Hact, (in_range_true bid Hbid).
  destruct Hbid as [Hbid _]. destruct w as [[l] tr]. simpl in Hm.
  io_run Hbid Hm. reflexivity.
Qed.

Lemma readIO_slot_set_valueUL e u m :
  valueUL (readIO_slot e (set_valueUL u m))
  = if polled m then valueUL (readIO_slot e m) else u.
Proof.
  unfold polled, assigned, readIO_slot. destruct m as [g n t p dl ul]; simpl.
  destruct (0 <=? g); [destruct t|]; reflexivity.
Qed.

Lemma polled_set_valueUL u m : polled (set_valueUL u m) = polled m.
Proof. reflexivity. Qed.

(** X13.  A button release is reported once.  After a release on slot
    [bid] while the device is active, the next [getData] reports the
    press type (as a [uint8_t]) in byte [bid] and the one after it
    reports 0 there.  This is so for every slot that is not polled;
    on a DigitalIn or AnalogIn slot with a pin both reports carry the
    sample instead, the stored press type being overwritten by the
    refresh. *)
Theorem button_release_reported_once (MOD TAG REL : Z) (e : env) (bid pt : Z)
    (w : world) (m : mio) :
  wf w -> AppCore_isDeviceActive e = true ->
  0 <= bid < NB_IOS -> ios (_ctx w) !! Z.to_nat bid = Some m ->
  exists w1 w2 w3 calls2 ds2 calls3 ds3,
    buttonChangeCB MOD REL e bid REL pt w = Ok tt w1
    /\ getData TAG e w1 = Ok true w2
    /\ getData TAG e w2 = Ok true w3
    /\ trace w2 = trace w1 ++ calls2 ++ [app_core_msg_ul_addTLV (UL_APP_IO_STATE TAG) 12 ds2]
    /\ trace w3 = trace w2 ++ calls3 ++ [app_core_msg_ul_addTLV (UL_APP_IO_STATE TAG) 12 ds3]
    /\ reports calls2 = [] /\ reports calls3 = []
    /\ ds2 !! Z.to_nat bid
       = Some (if polled m then valueUL (readIO_slot e m) else to_uint8 pt)
    /\ ds3 !! Z.to_nat bid
       = Some (if polled m then valueUL (readIO_slot e m) else 0).
Proof.
  intros Hwf Hact Hbid Hm.
  assert (Hlt : (Z.to_nat bid < length (ios (_ctx w)))%nat) by (by eapply lookup_lt_Some).
  set (m1 := set_valueUL (to_uint8 pt) m).
  set (l1 := <[Z.to_nat bid := m1]> (ios (_ctx w))).
  assert (Hl1 : length l1 = Z.to_nat NB_IOS) by (subst l1; by rewrite length_insert).
  assert (Hm1 : l1 !! Z.to_nat bid = Some m1) by (subst l1; by apply list_lookup_insert_eq).
  set (l2 := map (set_valueUL 0) (map (readIO_slot e) l1)).
  assert (Hl2 : length l2 = Z.to_nat NB_IOS) by (subst l2; by rewrite !length_map).
  assert (Hrep : forall l : list mio,
            reports ([log LOG_INFO "MIO: UL "] ++ concat (map readIO_calls l)) = []).
  { intros l. simpl. induction l as [|x r IH]; simpl; [reflexivity|].
    unfold reports in *. rewrite flat_map_app, IH, app_nil_r.
    unfold readIO_calls. destruct (0 <=? gpio x); [destruct (type x)|]; reflexivity. }
  eexists. eexists. eexists.
  exists ([log LOG_INFO "MIO: UL "] ++ concat (map readIO_calls l1)). eexists.
  exists ([log LOG_INFO "MIO: UL "] ++ concat (map readIO_calls l2)). eexists.
  split; [by apply buttonChangeCB_release|].
  split; [apply getData_spec; exact Hl1|].
  split; [apply getData_spec; exact Hl2|].
  unfold upd. cbn [_ctx ios trace]. fold m1. fold l1. fold l2.
  split; [by rewrite <- !app_assoc|].
  split; [by rewrite <- !app_assoc|].
  split; [apply Hrep|]. split; [apply Hrep|].
  split.
  - rewrite lookup_app_l by (rewrite !length_map, Hl1; unfold NB_IOS in *; lia).
    change map with (@fmap list _). rewrite !list_lookup_fmap, Hm1. simpl.
    subst m1. by rewrite readIO_slot_set_valueUL.
  - rewrite lookup_app_l by (rewrite !length_map, Hl2; unfold NB_IOS in *; lia).
    subst l2. change map with (@fmap list _). rewrite !list_lookup_fmap, Hm1. simpl.
    rewrite readIO_slot_again. subst m1.
    rewrite polled_set_valueUL, readIO_slot_set_valueUL.
    by destruct (polled m).
Qed.

Lemma button_release_reported_once_witness :
  wf board_out_button
  /\ exists w1 w2 w3,
       buttonChangeCB 7 0 env_high 1 0 2 board_out_button = Ok tt w1
       /\ getData 240 env_high w1 = Ok true w2
       /\ getData 240 env_high w2 = Ok true w3
       /\ reports (trace w3)
          = [[0; 2; 0; 0; 0; 0; 0; 0; 1]; [0; 0; 0; 0; 0; 0; 0; 0; 1]].
Proof.
  split; [reflexivity|].
  destruct (button_release_reported_once 7 240 0 env_high 1 2 board_out_button
              (Mio 6 "BTN1" IO_BUTTON 0 0 0) eq_refl eq_refl (conj Z.le_0_1 eq_refl) eq_refl)
    as (w1 & w2 & w3 & c2 & ds2 & c3 & ds3 & H1 & H2 & H3 & _).
  exists w1, w2, w3. split; [exact H1|]. split; [exact H2|]. split; [exact H3|].
  assert (E1 : Ok tt w1 = buttonChangeCB 7 0 env_high 1 0 2 board_out_button)
    by (symmetry; exact H1).
  vm_compute in E1. inversion E1. subst w1. clear E1 H1.
  assert (E2 : Ok true w2 = getData 240 env_high
                 (World (Appctx [Mio 5 "OUT0" IO_DOUT 0 0 0; Mio 6 "BTN1" IO_BUTTON 0 0 2;
                                 no_io; no_io; no_io; no_io; no_io; no_io])
                    [SRMgr_getLastButtonReleaseTS 6; SRMgr_getLastButtonPressTS 6;
                     SRMgr_getLastButtonPressType 6;
                     log LOG_INFO "MIO:button %d released, duration %d ms, press type:%d";
                     AppCore_forceUL 7]))
    by (symmetry; exact H2).
  vm_compute in E2. inversion E2. subst w2. clear E2 H2.
  assert (E3 : Ok true w3 = getData 240 env_high
                 (World (Appctx [Mio 5 "OUT0" IO_DOUT 0 0 0; Mio 6 "BTN1" IO_BUTTON 0 0 0;
                                 no_io; no_io; no_io; no_io; no_io; no_io])
                    [SRMgr_getLastButtonReleaseTS 6; SRMgr_getLastButtonPressTS 6;
                     SRMgr_getLastButtonPressType 6;
                     log LOG_INFO "MIO:button %d released, duration %d ms, press type:%d";
                     AppCore_forceUL 7; log LOG_INFO "MIO: UL ";
                     app_core_msg_ul_addTLV 240 12 [0; 2; 0; 0; 0; 0; 0; 0; 1]]))
    by (symmetry; exact H3).
  vm_compute in E3. inversion E3. reflexivity.
Defined.

(** X14.  Of two releases on the same slot between two reports only
    the last press type is kept: the context after both is the one
    the second release alone would leave, while two forced uplinks
    have been asked for. *)
Theorem buttonChangeCB_last_wins (MOD REL : Z) (e : env) (bid pt1 pt2 : Z)
    (w : world) (m : mio) :
  AppCore_isDeviceActive e = true ->
  0 <= bid < NB_IOS -> ios (_ctx w) !! Z.to_nat bid = Some m ->
  exists w1 w2 w2',
    buttonChangeCB MOD REL e bid REL pt1 w = Ok tt w1
    /\ buttonChangeCB MOD REL e bid REL pt2 w1 = Ok tt w2
    /\ buttonChangeCB MOD REL e bid REL pt2 w = Ok tt w2'
    /\ _ctx w2 = _ctx w2'
    /\ ios (_ctx w2) !! Z.to_nat bid = Some (set_valueUL (to_uint8 pt2) m)
    /\ forced (trace w2) = S (S (forced (trace w))).
Proof.
  intros Hact Hbid Hm.
  assert (Hlt : (Z.to_nat bid < length (ios (_ctx w)))%nat) by (by eapply lookup_lt_Some).
  eexists. eexists. eexists.
  split; [by apply buttonChangeCB_release|].
  split; [apply buttonChangeCB_release; [exact Hact | exact Hbid | by apply upd_lookup]|].
  split; [by apply buttonChangeCB_release|].
  rewrite upd_upd. unfold upd; cbn [_ctx ios trace]. split; [reflexivity|].
  split; [by apply list_lookup_insert_eq|].
  rewrite forced_app. unfold forced at 2. simpl. lia.
Qed.

Lemma buttonChangeCB_last_wins_witness :
  exists w1 w2,
    buttonChangeCB 7 0 env_high 1 0 3 board_out_button = Ok tt w1
    /\ buttonChangeCB 7 0 env_high 1 0 1 w1 = Ok tt w2
    /\ ios (_ctx w2) !! 1%nat = Some (Mio 6 "BTN1" IO_BUTTON 0 0 1)
    /\ forced (trace w2) = 2%nat.
Proof.
  destruct (buttonChangeCB_last_wins 7 0 env_high 1 3 1 board_out_button
              (Mio 6 "BTN1" IO_BUTTON 0 0 0) eq_refl (conj Z.le_0_1 eq_refl) eq_refl)
    as (w1 & w2 & w2' & H1 & H2 & _ & _ & Hslot & Hf).
  exists w1, w2. split; [exact H1|]. split; [exact H2|]. split; [exact Hslot | exact Hf].
Defined.

(** ** What a report does not do, and the range of its bytes *)

Lemma readIO_calls_quiet (l : list mio) :
  reports (concat (map readIO_calls l)) = []
  /\ forced (concat (map readIO_calls l)) = 0%nat
  /\ List.filter is_GPIO_write (concat (map readIO_calls l)) = [].
Proof.
  induction l as [|m r (IH1 & IH2 & IH3)]; simpl; [by repeat split|].
  unfold reports in *. rewrite flat_map_app, forced_app, List.filter_app, IH1, IH2, IH3.
  unfold readIO_calls. destruct (0 <=? gpio m); [destruct (type m)|]; by repeat split.
Qed.

(** X15.  One [getData] hands exactly one block of [NB_IOS]+1 bytes
    to the uplink encoder, asks for no forced uplink and writes no
    line. *)
Theorem getData_calls (TAG : Z) (e : env) (w : world) :
  wf w ->
  exists w' ds,
    getData TAG e w = Ok true w'
    /\ reports (trace w') = reports (trace w) ++ [ds]
    /\ length ds = Z.to_nat (NB_IOS + 1)
    /\ forced (trace w') = forced (trace w)
    /\ List.filter is_GPIO_write (trace w') = List.filter is_GPIO_write (trace w).
Proof.
  intros Hwf. eexists. eexists. split; [by apply getData_spec|].
  cbn [trace].
  destruct (readIO_calls_quiet (ios (_ctx w))) as (Hr & Hf & Hw).
  split; [|split; [|split]].
  - unfold reports in *. rewrite !flat_map_app, Hr. reflexivity.
  - rewrite length_app, !length_map. unfold wf in Hwf. rewrite Hwf. reflexivity.
  - rewrite !forced_app, Hf. unfold forced. simpl. lia.
  - rewrite !List.filter_app, Hw. simpl. by rewrite app_nil_r.
Qed.

Lemma getData_calls_witness :
  wf board_din
  /\ exists w' ds,
       getData 240 env_high board_din = Ok true w'
       /\ reports (trace w') = reports (trace board_din) ++ [ds]
       /\ length ds = Z.to_nat (NB_IOS + 1)
       /\ forced (trace w') = forced (trace board_din)
       /\ List.filter is_GPIO_write (trace w')
          = List.filter is_GPIO_write (trace board_din).
Proof. split; [reflexivity|]. apply (getData_calls 240 env_high board_din eq_refl). Defined.

Lemma bytes_ok_map (f : mio -> mio) (l : list mio) :
  (forall m, is_byte (valueDL m) /\ is_byte (valueUL m) ->
             is_byte (valueDL (f m)) /\ is_byte (valueUL (f m))) ->
  bytes_ok l -> bytes_ok (map f l).
Proof.
  intros Hf Hl. unfold bytes_ok in *. apply List.Forall_map.
  eapply List.Forall_impl; [|exact Hl]. exact Hf.
Qed.

Lemma bytes_ok_zip (v : list Z) :
  Forall is_byte v -> forall l, bytes_ok l -> bytes_ok (zip_with ioset_slot v l).
Proof.
  unfold bytes_ok. intros Hv. induction Hv as [|b v Hb Hv IH]; intros [|m l] Hl; simpl;
    try constructor.
  - inversion Hl as [|? ? [HDL HUL] Hl']; subst.
    unfold ioset_slot. destruct (is_output (type m)); simpl; by split.
  - inversion Hl; subst. by apply IH.
Qed.

Lemma bytes_readIO_slot e m :
  is_byte (valueDL m) /\ is_byte (valueUL m) ->
  is_byte (valueDL (readIO_slot e m)) /\ is_byte (valueUL (readIO_slot e m)).
Proof.
  intros [HDL HUL]. unfold readIO_slot.
  destruct (0 <=? gpio m); [destruct (type m)|]; simpl; split; auto;
    apply to_uint8_range.
Qed.

(** X16.  The value fields stay bytes.  If [valueDL] and [valueUL] of
    every slot are in 0..255, they still are after [readIOs], after
    [getData], after either edge callback (whatever state and press
    type it is given), and after [iosetAction] on a buffer of bytes;
    and every byte of the block [getData] reports is in 0..255. *)
Theorem uint8_fields_kept (MOD TAG REL : Z) (e : env) (w : world) :
  wf w -> bytes_ok (ios (_ctx w)) ->
  bytes_kept (readIOs e) w
  /\ bytes_kept (getData TAG e) w
  /\ (exists w' calls ds,
        getData TAG e w = Ok true w'
        /\ trace w' = trace w ++ calls
                      ++ [app_core_msg_ul_addTLV (UL_APP_IO_STATE TAG) 12 ds]
        /\ Forall is_byte ds)
  /\ (forall bid st pt, bytes_kept (buttonChangeCB MOD REL e bid st pt) w)
  /\ (forall bid st pt, bytes_kept (stateInputChangeCB MOD e bid st pt) w)
  /\ (forall v, Forall is_byte v -> bytes_kept (iosetAction v (Z.of_nat (length v))) w).
Proof.
  intros Hwf Hok.
  assert (Hset : forall u m, is_byte u ->
             is_byte (valueDL m) /\ is_byte (valueUL m) ->
             is_byte (valueDL (set_valueUL u m)) /\ is_byte (valueUL (set_valueUL u m))).
  { intros u m Hu [HDL _]. by split. }
  assert (Hzero : is_byte 0) by (unfold is_byte; lia).
  split; [|split; [|split; [|split; [|split]]]].
  - exists tt. eexists. split; [by apply readIOs_spec|].
    apply bytes_ok_map; [apply bytes_readIO_slot | exact Hok].
  - exists true. eexists. split; [by apply getData_spec|]. cbn [_ctx ios].
    apply bytes_ok_map; [intros m; by apply Hset|].
    apply bytes_ok_map; [apply bytes_readIO_slot | exact Hok].
  - eexists. exists ([log LOG_INFO "MIO: UL "] ++ concat (map readIO_calls (ios (_ctx w)))).
    eexists. split; [by apply getData_spec|]. cbn [trace].
    split; [by rewrite <- !app_assoc|].
    apply Forall_app_2.
    + rewrite map_map. apply List.Forall_map.
      eapply List.Forall_impl; [|exact Hok].
      intros m Hm. by apply bytes_readIO_slot.
    + constructor; [|constructor]. destruct (AppCore_isDeviceActive e); unfold is_byte; lia.
  - intros bid st pt.
    destruct (buttonChangeCB_cases MOD REL e bid st pt w Hwf)
      as (tr & _ & [Hc | (mb & Hmb & Hc)]).
    + exists tt. eexists. split; [exact Hc | exact Hok].
    + exists tt. eexists. split; [exact Hc|]. unfold upd; cbn [_ctx ios].
      apply Forall_insert; [exact Hok|].
      apply Hset; [apply to_uint8_range|]. by eapply Forall_lookup_1 in Hok.
  - intros bid st pt.
    destruct (stateInputChangeCB_cases MOD e bid st pt w Hwf)
      as (tr & _ & [Hc | (mb & Hmb & Hc)]).
    + exists tt. eexists. split; [exact Hc | exact Hok].
    + exists tt. eexists. split; [exact Hc|]. unfold upd; cbn [_ctx ios].
      apply Forall_insert; [exact Hok|].
      apply Hset; [apply to_uint8_range|]. by eapply Forall_lookup_1 in Hok.
  - intros v Hv. destruct (decide (Z.of_nat (length v) = NB_IOS)) as [Hl|Hl].
    + rewrite Hl. exists tt. eexists. split; [apply iosetAction_spec; [exact Hwf | lia]|].
      cbn [_ctx ios]. by apply bytes_ok_zip.
    + exists tt. eexists. split; [|].
      * unfold iosetAction. destruct (Z.eqb_spec (Z.of_nat (length v)) NB_IOS); [done|].
        reflexivity.
      * exact Hok.
Qed.

Lemma uint8_fields_kept_witness :
  wf board_out_button /\ bytes_ok (ios (_ctx board_out_button))
  /\ bytes_kept (buttonChangeCB 7 0 env_high 1 0 258) board_out_button
  /\ bytes_kept (readIOs env_high) board_out_button.
Proof.
  assert (Hok : bytes_ok (ios (_ctx board_out_button))).
  { repeat constructor; discriminate. }
  split; [reflexivity|]. split; [exact Hok|].
  destruct (uint8_fields_kept 7 240 0 env_high board_out_button eq_refl Hok)
    as (Hread & _ & _ & Hcb & _).
  split; [exact (Hcb 1 0 258) | exact Hread].
Defined.

(** X17.  [readIOs] visits the slots in index order and asks the
    driver exactly once for each polled slot ([GPIO_read] for a
    DigitalIn with a pin, [GPIO_readADC] for an AnalogIn with a pin)
    and never for another slot; the polled slots get the low eight
    bits of the answer as [valueUL], all other slots are left as they
    were. *)
Theorem readIOs_polls (e : env) (w : world) :
  wf w ->
  exists w',
    readIOs e w = Ok tt w'
    /\ trace w' = trace w ++ concat (map readIO_calls (ios (_ctx w)))
    /\ length (concat (map readIO_calls (ios (_ctx w))))
       = length (List.filter polled (ios (_ctx w)))
    /\ forall (i : nat) m,
         ios (_ctx w) !! i = Some m ->
         (polled m = false -> ios (_ctx w') !! i = Some m /\ readIO_calls m = [])
         /\ (assigned m = true -> type m = IO_DIN ->
             ios (_ctx w') !! i = Some (set_valueUL (to_uint8 (GPIO_read_ret e (gpio m))) m)
             /\ readIO_calls m = [GPIO_read (gpio m)])
         /\ (assigned m = true -> type m = IO_AIN ->
             ios (_ctx w') !! i = Some (set_valueUL (to_uint8 (GPIO_readADC_ret e (gpio m))) m)
             /\ readIO_calls m = [GPIO_readADC (gpio m)]).
Proof.
  intros Hwf. eexists. split; [by apply readIOs_spec|]. cbn [_ctx ios trace].
  split; [reflexivity|]. split.
  - generalize (ios (_ctx w)). intros l. induction l as [|m r IH]; simpl; [reflexivity|].
    rewrite length_app, IH. unfold readIO_calls, polled, assigned.
    destruct (0 <=? gpio m); [destruct (type m)|]; reflexivity.
  - intros i m Hm.
    assert (Hslot : map (readIO_slot e) (ios (_ctx w)) !! i = Some (readIO_slot e m))
      by (change map with (@fmap list _); by rewrite list_lookup_fmap, Hm).
    rewrite Hslot. unfold readIO_slot, readIO_calls, polled, assigned.
    split; [|split].
    + destruct (0 <=? gpio m); [destruct (type m)|]; simpl; intros H;
        try discriminate; by split.
    + intros -> ->. by split.
    + intros -> ->. by split.
Qed.

Lemma readIOs_polls_witness :
  wf board_din
  /\ exists w',
       readIOs env_high board_din = Ok tt w'
       /\ trace w' = [GPIO_read 5]
       /\ ios (_ctx w') !! 0%nat = Some (Mio 5 "IN0" IO_DIN 0 0 1)
       /\ ios (_ctx w') !! 1%nat = Some no_io.
Proof.
  split; [reflexivity|].
  destruct (readIOs_polls env_high board_din eq_refl) as (w' & Hrun & Htr & _ & Hslots).
  exists w'. split; [exact Hrun|]. split; [exact Htr|]. split.
  - destruct (Hslots 0%nat (Mio 5 "IN0" IO_DIN 0 0 0) eq_refl) as (_ & Hdin & _).
    exact (proj1 (Hdin eq_refl eq_refl)).
  - destruct (Hslots 1%nat no_io eq_refl) as (Hno & _).
    exact (proj1 (Hno eq_refl)).
Defined.
